(** * thenewboston-node: block store, balance resolution and block validation

    A shallow embedding of
    - [business_logic/blockchain/memory_blockchain.py] ([MemoryBlockchain]),
    - [business_logic/models/block_message.py] ([BlockMessage]),
    - [business_logic/models/account_balance.py] ([BlockAccountBalance]),
    followed by the properties of these functions.

    Python integers are unbounded and are modelled by [Z].  Exceptions are
    modelled by the [result] type: [Raise e] is a raised exception that
    propagates through every caller that does not catch it.  Block numbers and
    list lengths are taken to stay below [sys.maxsize], so that [islice]
    rejects an index only when it is negative. *)

From Stdlib Require Import ZArith Lia.
From stdpp Require Import base option list strings pretty gmap.

Local Open Scope string_scope.
Local Open Scope Z_scope.

(** ** Exceptions *)

Inductive exn : Type :=
| ValueError (msg : string)
| ValidationError (msg : string)
| MissingEarlierBlocksError
| AssertionError
| TypeError
| IndexError
| NotImplementedError.

Inductive result (A : Type) : Type :=
| Ok (a : A)
| Raise (e : exn).
Arguments Ok {A} a.
Arguments Raise {A} e.

#[global] Instance result_ret : MRet result := fun A a => Ok a.
#[global] Instance result_bind : MBind result :=
  fun A B f m => match m with Ok a => f a | Raise e => Raise e end.

Definition raises {A} (r : result A) : Prop := exists e, r = Raise e.
(** ** Data model *)

(** A [datetime]; [tzinfo] is [None] for a naive value. *)
Record datetime : Type := { tzinfo : option string; instant : Z }.

(** The dynamically typed value found in a timestamp attribute. *)
Inductive pyobj : Type :=
| PyNone
| PyNotDatetime
| PyDatetime (d : datetime).

(** The state of one account recorded by a block: the attributes [balance]
    and [balance_lock] read by [memory_blockchain.py] and [block_message.py]. *)
Record AccountState : Type := {
  balance : Z;
  balance_lock : option string
}.

(** Modelled from the spec: the signed change request classes are not part of
    the sources.  A request exposes its signer, [get_sent_amount()],
    [get_recipient_amount(recipient)], and whether it is a
    [CoinTransferSignedChangeRequest]. *)
Record SignedChangeRequest : Type := {
  signer : string;
  is_coin_transfer : bool;
  scr_get_sent_amount : Z;
  scr_get_recipient_amount : string -> Z
}.

(** [BlockMessage] (block_message.py, lines 23-45).  [updated_account_states]
    is a Python dict, kept in insertion order. *)
Record BlockMessage : Type := {
  block_type : string;
  signed_change_request : option SignedChangeRequest;
  timestamp : pyobj;
  block_number : Z;
  block_identifier : string;
  updated_account_states : list (string * AccountState)
}.

Record Block : Type := { message : BlockMessage }.

(** Modelled from the spec: [AccountRootFile] is not part of the sources.  A
    snapshot has [last_block_number] (absent for the genesis snapshot),
    [last_block_timestamp], and the accessors [get_balance_value] and
    [get_balance_lock] over its recorded balances. *)
Record AccountRootFile : Type := {
  last_block_number : option Z;
  last_block_timestamp : option datetime;
  get_balance_value : string -> option Z;
  get_balance_lock : string -> option string
}.

(** Modelled from the spec: [is_initial()] is not part of the sources; the
    genesis snapshot is the one whose [last_block_number] is absent. *)
Definition is_initial (arf : AccountRootFile) : bool :=
  match last_block_number arf with None => true | Some _ => false end.

Record MemoryBlockchain : Type := {
  account_root_files : list AccountRootFile;
  blocks : list Block
}.

Definition number_of (b : Block) : Z := block_number (message b).

(** ** Python primitives *)

(** [l[i]] with Python's negative indices. *)
Definition py_getitem {A} (l : list A) (i : Z) : result A :=
  let n := Z.of_nat (length l) in
  let j := if i <? 0 then i + n else i in
  if (j <? 0) || (n <=? j) then Raise IndexError
  else match l !! Z.to_nat j with
       | Some x => Ok x
       | None => Raise IndexError
       end.

(** [islice(it, start, stop, 1)]: a negative index is a [ValueError]. *)
Definition islice {A} (l : list A) (start stop : Z) : result (list A) :=
  if (start <? 0) || (stop <? 0)
  then Raise (ValueError "Indices for islice() must be None or an integer: 0 <= x <= sys.maxsize.")
  else Ok (take (Z.to_nat (stop - start)) (drop (Z.to_nat start) l)).

(** [islice(it, stop)]. *)
Definition islice_stop {A} (l : list A) (stop : Z) : result (list A) :=
  islice l 0 stop.

(** [dict.get(key)] on an insertion-ordered dict. *)
Fixpoint dict_get {V} (d : list (string * V)) (key : string) : option V :=
  match d with
  | [] => None
  | (k, v) :: d' => if String.eqb k key then Some v else dict_get d' key
  end.

(** [bool(s)] for an optional string: [None] and the empty string are falsy. *)
Definition truthy (s : option string) : bool :=
  match s with
  | None => false
  | Some EmptyString => false
  | Some (String _ _) => true
  end.

(** ** MemoryBlockchain: block store *)

(** [get_head_block] (lines 28-33). *)
Definition get_head_block (bc : MemoryBlockchain) : option Block :=
  last (blocks bc).

(** [get_block_by_number] (lines 35-52), over any representation of the
    stored blocks: [number] reads [block.message.block_number].  The store
    itself holds blocks; the object-level store of section "Object identity"
    holds references to them. *)
Definition block_by_number {A} (number : A -> Z) (blocks : list A) (n : Z)
  : result (option A) :=
  if n <? 0 then Raise (ValueError "block_number must be greater or equal to 0")
  else
    match last blocks with
    | None => Ok None
    | Some head_block =>
        let head_block_number := number head_block in
        if head_block_number <? n then Ok None
        else
          let block_index := n - head_block_number - 1 in
          match py_getitem blocks block_index with
          | Ok b => Ok (Some b)
          | Raise IndexError =>
              match py_getitem blocks 0 with
              | Ok first =>
                  if n <? number first then Raise MissingEarlierBlocksError
                  else Raise AssertionError
              | Raise e => Raise e
              end
          | Raise e => Raise e
          end
    end.

Definition get_block_by_number (bc : MemoryBlockchain) (n : Z)
  : result (option Block) :=
  block_by_number number_of (blocks bc) n.

(** [get_last_account_root_file] (lines 135-140). *)
Definition get_last_account_root_file (bc : MemoryBlockchain)
  : option AccountRootFile :=
  last (account_root_files bc).

(** [get_first_account_root_file] (lines 142-147). *)
Definition get_first_account_root_file (bc : MemoryBlockchain)
  : option AccountRootFile :=
  head (account_root_files bc).

(** [get_account_root_files_reversed] (lines 149-150). *)
Definition get_account_root_files_reversed (bc : MemoryBlockchain)
  : list AccountRootFile :=
  reverse (account_root_files bc).

(** Modelled from the spec: [get_closest_account_root_file] lives in the base
    class, which is not part of the sources.  No block number means the most
    recent snapshot; otherwise the latest snapshot whose [last_block_number] is
    at most the block number, the genesis snapshot matching any target. *)
Definition get_closest_account_root_file (bc : MemoryBlockchain)
    (block_number : option Z) : option AccountRootFile :=
  match block_number with
  | None => get_last_account_root_file bc
  | Some n =>
      List.find
        (fun arf => match last_block_number arf with
                    | None => true
                    | Some k => k <=? n
                    end)
        (get_account_root_files_reversed bc)
  end.

(** ** BlockMessage accessors *)

(** [get_account_state] (block_message.py, lines 106-107). *)
Definition get_account_state (m : BlockMessage) (account : string)
  : option AccountState :=
  dict_get (updated_account_states m) account.

(** Modelled from the spec: memory_blockchain.py calls
    [block.message.get_balance(account)], a method that [BlockMessage] does
    not define in the sources; it is the entry of [updated_account_states]
    that mentions the account, the same lookup as [get_account_state]. *)
Definition get_balance (m : BlockMessage) (account : string)
  : option AccountState :=
  get_account_state m account.

(** [get_sent_amount] (lines 109-111). *)
Definition get_sent_amount (m : BlockMessage) : result Z :=
  match signed_change_request m with
  | None => Raise AssertionError
  | Some r => Ok (scr_get_sent_amount r)
  end.

(** [get_recipient_amount] (lines 113-115). *)
Definition get_recipient_amount (m : BlockMessage) (recipient : string)
  : result Z :=
  match signed_change_request m with
  | None => Raise AssertionError
  | Some r => Ok (scr_get_recipient_amount r recipient)
  end.

(** ** MemoryBlockchain: balance and lock resolution *)

(** What a generator does when it is run to its end: the values it yields, in
    order, and then either a normal end ([None]) or a raised exception. *)
Record generated (A : Type) : Type := {
  yielded : list A;
  ending : option exn
}.
Arguments yielded {A} g.
Arguments ending {A} g.

Definition gen_empty {A} : generated A := {| yielded := []; ending := None |}.
Definition gen_raise {A} (e : exn) : generated A :=
  {| yielded := []; ending := Some e |}.

(** The loop of lines 87-92: every block is checked against the snapshot's
    block number before it is yielded. *)
Fixpoint yield_checked (account_root_file_block_number : option Z)
    (l : list Block) : generated Block :=
  match l with
  | [] => gen_empty
  | block :: l' =>
      let passes :=
        match account_root_file_block_number with
        | None => true
        | Some k => k <? number_of block
        end in
      if passes then
        let g := yield_checked account_root_file_block_number l' in
        {| yielded := block :: yielded g; ending := ending g |}
      else gen_raise AssertionError
  end.

(** [get_blocks_until_account_root_file] (lines 54-92). *)
Definition get_blocks_until_account_root_file (bc : MemoryBlockchain)
    (start_block_number : option Z) : generated Block :=
  if match start_block_number with Some s => s <? 0 | None => false end
  then gen_empty
  else
    match last (blocks bc) with
    | None => gen_empty
    | Some current_head_block =>
        match get_closest_account_root_file bc start_block_number with
        | None => gen_empty
        | Some account_root_file =>
            let account_root_file_block_number :=
              last_block_number account_root_file in
            let asserted :=
              match start_block_number, account_root_file_block_number with
              | Some s, Some k => k <=? s
              | _, _ => true
              end in
            if negb asserted then gen_raise AssertionError
            else
              let current_head_block_number := number_of current_head_block in
              let offset :=
                match start_block_number with
                | None => 0
                | Some s => current_head_block_number - s
                end in
              let blocks_to_return :=
                match account_root_file_block_number with
                | None => Z.of_nat (length (blocks bc)) - offset
                | Some k => current_head_block_number - k - offset
                end in
              match islice (reverse (blocks bc)) offset
                           (offset + blocks_to_return) with
              | Raise e => gen_raise e
              | Ok window =>
                  yield_checked account_root_file_block_number window
              end
        end
    end.

(** A [for] loop over a generator that returns from its body at the first
    element on which [body] answers; the generator's exception, if any, is met
    only when no earlier element made the loop return. *)
Fixpoint first_hit {A B} (body : A -> option B) (l : list A) : option B :=
  match l with
  | [] => None
  | x :: l' =>
      match body x with
      | Some y => Some y
      | None => first_hit body l'
      end
  end.

Definition for_return {A B} (g : generated A) (body : A -> option B)
  : result (option B) :=
  match first_hit body (yielded g) with
  | Some y => Ok (Some y)
  | None =>
      match ending g with
      | Some e => Raise e
      | None => Ok None
      end
  end.

(** [_get_balance_from_block] (lines 94-100). *)
Definition _get_balance_from_block (bc : MemoryBlockchain) (account : string)
    (block_number : option Z) : result (option Z) :=
  for_return (get_blocks_until_account_root_file bc block_number)
    (fun block =>
       match get_balance (message block) account with
       | Some st => Some (balance st)
       | None => None
       end).

(** [_get_balance_from_account_root_file] (lines 102-105). *)
Definition _get_balance_from_account_root_file (bc : MemoryBlockchain)
    (account : string) (block_number : option Z) : result (option Z) :=
  match get_closest_account_root_file bc block_number with
  | None => Raise AssertionError
  | Some account_root_file => Ok (get_balance_value account_root_file account)
  end.

(** [get_account_balance] (lines 107-121). *)
Definition get_account_balance (bc : MemoryBlockchain) (account : string)
    (block_number : option Z) : result (option Z) :=
  if match block_number with Some n => n <? -1 | None => false end
  then Raise (ValueError "block_number must be greater or equal to -1")
  else
    b ← _get_balance_from_block bc account block_number;
    match b with
    | None => _get_balance_from_account_root_file bc account block_number
    | Some v => Ok (Some v)
    end.

(** [get_account_balance_lock] (lines 123-133). *)
Definition get_account_balance_lock (bc : MemoryBlockchain) (account : string)
  : result (option string) :=
  hit ← for_return (get_blocks_until_account_root_file bc None)
          (fun block =>
             match get_balance (message block) account with
             | Some st =>
                 if truthy (balance_lock st) then balance_lock st else None
             | None => None
             end);
  match hit with
  | Some balance_lock => Ok (Some balance_lock)
  | None =>
      match get_closest_account_root_file bc None with
      | None => Raise AssertionError
      | Some account_root_file => Ok (get_balance_lock account_root_file account)
      end
  end.

(** ** Validators *)

(** Modelled from the spec: [humanized_class_name_lowered] is a property of
    the base dataclass, which is not part of the sources; for [BlockMessage]
    it reads "block message". *)
Definition humanized_class_name_lowered : string := "block message".

(** Modelled from the spec: the [validators] module is not part of the
    sources.  Each validator below raises a [ValidationError] whose message
    starts with its subject.  [validate_not_empty] rejects a falsy value
    (Python truthiness, passed as a boolean). *)
Definition validate_not_empty (subject : string) (truth : bool) : result unit :=
  if truth then Ok tt
  else Raise (ValidationError (subject +:+ " must be not empty")).

(** Modelled from the spec: [validate_empty] rejects a truthy value. *)
Definition validate_empty (subject : string) (truth : bool) : result unit :=
  if truth then Raise (ValidationError (subject +:+ " must be empty"))
  else Ok tt.

(** Modelled from the spec: [validate_type(subject, value, str)]; among the
    values of an optional string only [None] is no [str]. *)
Definition validate_type_str (subject : string) (value : option string)
  : result unit :=
  match value with
  | Some _ => Ok tt
  | None => Raise (ValidationError (subject +:+ " must be str"))
  end.

(** Modelled from the spec: [validate_min_item_count] rejects a container of
    fewer than [min_] items. *)
Definition validate_min_item_count {A} (subject : string) (value : list A)
    (min_ : Z) : result unit :=
  if Z.of_nat (length value) <? min_
  then Raise (ValidationError (subject +:+ " must contain at least "
                               +:+ pretty min_ +:+ " items"))
  else Ok tt.

(** Modelled from the spec: [validate_greater_than_zero] rejects a value that
    is not strictly positive; comparing [None] with 0 is a [TypeError]. *)
Definition validate_greater_than_zero (subject : string) (value : option Z)
  : result unit :=
  match value with
  | None => Raise TypeError
  | Some v =>
      if v <=? 0
      then Raise (ValidationError (subject +:+ " must be greater than zero"))
      else Ok tt
  end.

(** Modelled from the spec: the message of [validate_exact_value], naming the
    subject, the expected and the actual value. *)
Definition exact_value_message (subject actual expected : string) : string :=
  subject +:+ " must be equal to " +:+ expected +:+ " but is " +:+ actual.

(** Modelled from the spec: [validate_exact_value] rejects a value different
    from the expected one; [show] renders a value in the message. *)
Definition validate_exact_value {A} `{EqDecision A} (show : A -> string)
    (subject : string) (value expected_value : A) : result unit :=
  if decide (value = expected_value) then Ok tt
  else Raise (ValidationError
                (exact_value_message subject (show value) (show expected_value))).

(** [str(balance_lock)]. *)
Definition show_lock (l : option string) : string :=
  match l with Some s => s | None => "None" end.

(** [balance - amount] and [balance + amount], where [balance] may be [None]. *)
Definition py_sub (a : option Z) (b : Z) : result Z :=
  match a with Some x => Ok (x - b) | None => Raise TypeError end.
Definition py_add (a : option Z) (b : Z) : result Z :=
  match a with Some x => Ok (x + b) | None => Raise TypeError end.

(** [timestamp <= min_timestamp] for a naive [timestamp]: comparing with an
    aware datetime or with a value that is no datetime is a [TypeError]. *)
Definition datetime_le (ts : datetime) (other : pyobj) : result bool :=
  match other with
  | PyDatetime d =>
      match tzinfo d with
      | None => Ok (instant ts <=? instant d)
      | Some _ => Raise TypeError
      end
  | _ => Raise TypeError
  end.

(** ** BlockMessage validation *)

Section BlockMessageValidation.

(** Parts of the repository that [block_message.py] calls and that are not
    in the sources: the blockchain's snapshot lookup and expected block
    identifier, the request's and the account state's own validators, and
    the lock rotation [make_balance_lock], applied to the message's
    [signed_change_request] attribute.  The [validates] decorator and context
    manager only log: an exception raised under them propagates unchanged. *)
Variable get_closest_blockchain_state_snapshot :
  MemoryBlockchain -> Z -> result (option AccountRootFile).
Variable get_expected_block_identifier : MemoryBlockchain -> Z -> result string.
Variable signed_change_request_validate :
  SignedChangeRequest -> MemoryBlockchain -> Z -> result unit.
Variable account_state_validate : AccountState -> result unit.
Variable make_balance_lock : option SignedChangeRequest -> string.

(** [validate_signed_change_request] (lines 128-134). *)
Definition validate_signed_change_request (m : BlockMessage)
    (bc : MemoryBlockchain) : result unit :=
  match signed_change_request m with
  | None =>
      Raise (ValidationError "Block message transfer request must present")
  | Some r => signed_change_request_validate r bc (block_number m)
  end.

(** [validate_timestamp] (lines 136-172). *)
Definition validate_timestamp (m : BlockMessage) (bc : MemoryBlockchain)
  : result unit :=
  match timestamp m with
  | PyNone => Raise (ValidationError "Block message timestamp must be set")
  | PyNotDatetime =>
      Raise (ValidationError "Block message timestamp must be datetime type")
  | PyDatetime ts =>
      match tzinfo ts with
      | Some _ =>
          Raise (ValidationError
            "Block message timestamp must be naive datetime (UTC timezone implied)")
      | None =>
          let block_number := block_number m in
          if 0 <? block_number then
            let prev_block_number := block_number - 1 in
            prev_block ← get_block_by_number bc prev_block_number;
            min_timestamp ←
              match prev_block with
              | None =>
                  account_root_file ←
                    get_closest_blockchain_state_snapshot bc block_number;
                  match account_root_file with
                  | None =>
                      Raise (ValidationError
                        "Unexpected could not find base account root file")
                  | Some arf =>
                      if is_initial arf then
                        Raise (ValidationError
                          "Unexpected initial account root file found")
                      else if negb (bool_decide
                               (last_block_number arf = Some prev_block_number))
                      then
                        Raise (ValidationError
                          "Base account root file block number mismatch")
                      else
                        match last_block_timestamp arf with
                        | None => Raise AssertionError
                        | Some t => Ok (PyDatetime t)
                        end
                  end
              | Some b => Ok (timestamp (message b))
              end;
            le ← datetime_le ts min_timestamp;
            if le : bool then
              Raise (ValidationError
                "Block message timestamp must be greater than from previous block")
            else Ok tt
          else Ok tt
      end
  end.

(** [validate_block_number] (lines 174-184); the attribute is an integer. *)
Definition validate_block_number (m : BlockMessage) : result unit :=
  if block_number m <? 0
  then Raise (ValidationError "Block number must be greater or equal to 0")
  else Ok tt.

(** [validate_block_identifier] (lines 186-199). *)
Definition validate_block_identifier (m : BlockMessage)
    (bc : MemoryBlockchain) : result unit :=
  expected ← get_expected_block_identifier bc (block_number m);
  if String.eqb (block_identifier m) expected then Ok tt
  else Raise (ValidationError "Invalid block identifier").

Definition role (is_sender : bool) : string :=
  if is_sender then "sender" else "recipient".

(** [validate_updated_account_balance_lock] (lines 234-248). *)
Definition validate_updated_account_balance_lock (m : BlockMessage)
    (account_number : string) (account_state : AccountState)
    (is_sender : bool) : result unit :=
  let subject :=
    humanized_class_name_lowered +:+ " " +:+ role is_sender +:+ " account "
    +:+ account_number +:+ " balance_lock" in
  let balance_lock := balance_lock account_state in
  if is_sender then
    _ ← validate_not_empty subject (truthy balance_lock);
    _ ← validate_type_str subject balance_lock;
    validate_exact_value show_lock subject balance_lock
      (Some (make_balance_lock (signed_change_request m)))
  else validate_empty subject (truthy balance_lock).

(** [validate_updated_account_balance] (lines 250-264). *)
Definition validate_updated_account_balance (m : BlockMessage)
    (account_number : string) (account_state : AccountState)
    (bc : MemoryBlockchain) (is_sender : bool) : result unit :=
  let subject :=
    humanized_class_name_lowered +:+ " " +:+ role is_sender +:+ " account "
    +:+ account_number in
  prior ← get_account_balance bc account_number (Some (block_number m - 1));
  expected_balance ←
    (if is_sender then
       _ ← validate_greater_than_zero
             ("sender account " +:+ account_number +:+ " current balance")
             prior;
       sent ← get_sent_amount m;
       py_sub prior sent
     else
       amount ← get_recipient_amount m account_number;
       py_add prior amount);
  validate_exact_value pretty (subject +:+ " balance")
    (balance account_state) expected_balance.

(** The loop of lines 216-232. *)
Fixpoint validate_account_entries (m : BlockMessage) (bc : MemoryBlockchain)
    (signer : string) (items : list (string * AccountState)) : result unit :=
  match items with
  | [] => Ok tt
  | (account_number, account_state) :: rest =>
      let account_subject :=
        humanized_class_name_lowered
        +:+ " updated_account_states key (account number)" in
      _ ← validate_not_empty account_subject (truthy (Some account_number));
      _ ← validate_type_str account_subject (Some account_number);
      _ ← account_state_validate account_state;
      let is_sender := String.eqb account_number signer in
      _ ← validate_updated_account_balance_lock m account_number
            account_state is_sender;
      _ ← validate_updated_account_balance m account_number account_state
            bc is_sender;
      validate_account_entries m bc signer rest
  end.

(** [validate_updated_account_states] (lines 201-232). *)
Definition validate_updated_account_states (m : BlockMessage)
    (bc : MemoryBlockchain) : result unit :=
  let updated_account_states := updated_account_states m in
  _ ← validate_not_empty
        (humanized_class_name_lowered +:+ " updated_account_states")
        (negb (bool_decide (updated_account_states = [])));
  match signed_change_request m with
  | Some r =>
      if is_coin_transfer r then
        _ ← validate_min_item_count
              (humanized_class_name_lowered +:+ " updated_account_states")
              updated_account_states 2;
        let signer := signer r in
        let sender_account_state := dict_get updated_account_states signer in
        _ ← validate_not_empty
              (humanized_class_name_lowered +:+ " updated_account_states."
               +:+ signer)
              (bool_decide (is_Some sender_account_state));
        validate_account_entries m bc signer updated_account_states
      else Ok tt
  | None => Ok tt
  end.

(** [validate] (lines 117-126). *)
Definition validate_message (m : BlockMessage) (bc : MemoryBlockchain)
  : result unit :=
  _ ← validate_signed_change_request m bc;
  _ ← validate_block_number m;
  _ ← validate_timestamp m bc;
  _ ← validate_block_identifier m bc;
  validate_updated_account_states m bc.

End BlockMessageValidation.

(** ** MemoryBlockchain: chain validation *)

Section ChainValidation.

(** [Block.validate(blockchain)]; the [Block] class is not in the sources. *)
Variable block_validate : Block -> MemoryBlockchain -> result unit.

(** A run of the chain validator: the blocks handed to [block.validate], in
    order, and how the run ended. *)
Record validation_run : Type := {
  delegated : list Block;
  outcome : result unit
}.

(** The loop of lines 187-188: the first failing block ends the run. *)
Fixpoint validate_each (bc : MemoryBlockchain) (blocks_iter : list Block)
  : validation_run :=
  match blocks_iter with
  | [] => {| delegated := []; outcome := Ok tt |}
  | block :: rest =>
      match block_validate block bc with
      | Ok _ =>
          let run := validate_each bc rest in
          {| delegated := block :: delegated run; outcome := outcome run |}
      | Raise e => {| delegated := [block]; outcome := Raise e |}
      end
  end.

(** [offset or 0]. *)
Definition or_zero (offset : option Z) : Z :=
  match offset with Some o => o | None => 0 end.

(** [validate_blocks] (lines 170-190). *)
Definition validate_blocks (bc : MemoryBlockchain) (offset limit : option Z)
  : validation_run :=
  let blocks := blocks bc in
  let blocks_iter :=
    if bool_decide (offset <> None) || bool_decide (limit <> None) then
      let start := or_zero offset in
      match limit with
      | None => islice_stop blocks start
      | Some limit => islice blocks start (start + limit)
      end
    else Ok blocks in
  match blocks_iter with
  | Raise e => {| delegated := []; outcome := Raise e |}
  | Ok blocks_iter =>
      let run := validate_each bc blocks_iter in
      {| delegated := delegated run;
         outcome := _ ← outcome run; Raise NotImplementedError |}
  end.

(** [validate_account_root_files] (lines 156-159). *)
Definition validate_account_root_files (bc : MemoryBlockchain) : result unit :=
  match account_root_files bc with
  | [] =>
      Raise (ValidationError
               "Blockchain must contain at least one account root file")
  | _ :: _ => Ok tt
  end.

(** [validate] (lines 152-154). *)
Definition validate (bc : MemoryBlockchain) (block_offset block_limit : option Z)
  : validation_run :=
  match validate_account_root_files bc with
  | Raise e => {| delegated := []; outcome := Raise e |}
  | Ok _ => validate_blocks bc None None
  end.

End ChainValidation.

(** ** Object identity: [persist_block] and what a lookup hands out

    Python variables hold references.  [objects] is the memory of block
    objects, addressed by position; [chain_blocks] is the list [self.blocks],
    which holds references into it. *)

Module Objects.

Definition ref : Type := nat.

Record Memory : Type := {
  objects : list Block;
  chain_blocks : list ref
}.

(** [copy.deepcopy(block)]: a new object with the same content, sharing
    nothing with the original. *)
Definition deepcopy (mem : Memory) (block : ref) : option (Memory * ref) :=
  content ← objects mem !! block;
  Some ({| objects := objects mem ++ [content];
           chain_blocks := chain_blocks mem |},
        length (objects mem)).

(** [persist_block] (lines 25-26). *)
Definition persist_block (mem : Memory) (block : ref) : option Memory :=
  '(mem', copy) ← deepcopy mem block;
  Some {| objects := objects mem';
          chain_blocks := chain_blocks mem' ++ [copy] |}.

(** [block.message.block_number] read through a reference. *)
Definition number_at (mem : Memory) (r : ref) : Z :=
  from_option number_of 0 (objects mem !! r).

(** [get_block_by_number] (lines 35-52): the result is the element of
    [self.blocks] itself. *)
Definition get_block_by_number (mem : Memory) (n : Z) : result (option ref) :=
  block_by_number (number_at mem) (chain_blocks mem) n.

(** An in-place change of the object behind a reference. *)
Definition mutate (mem : Memory) (r : ref) (f : Block -> Block) : Memory :=
  {| objects := alter f r (objects mem); chain_blocks := chain_blocks mem |}.

(** The stored state: the content of the blocks of [self.blocks]. *)
Definition stored (mem : Memory) : list Block :=
  omap (fun r => objects mem !! r) (chain_blocks mem).

End Objects.

(** ** BlockAccountBalance serialization *)

Module Serialization.

(** Values of a serialized dict. *)
Inductive pyval : Type :=
| VNone
| VInt (z : Z)
| VStr (s : string).

(** [BlockAccountBalance] (account_balance.py, lines 39-43). *)
Record BlockAccountBalance : Type := {
  value : Z;
  lock : option string
}.

Definition lock_val (l : option string) : pyval :=
  match l with Some s => VStr s | None => VNone end.

(** [super_to_dict]: the dataclass's own [to_dict], one key per field. *)
Definition super_to_dict (b : BlockAccountBalance) : gmap string pyval :=
  <["lock" := lock_val (lock b)]> (<["value" := VInt (value b)]> ∅).

(** [override_to_dict] (lines 45-53). *)
Definition override_to_dict (b : BlockAccountBalance) : gmap string pyval :=
  let dict_ := super_to_dict b in
  match dict_ !! "lock" with
  | Some VNone => delete "lock" dict_
  | _ => dict_
  end.

Definition to_dict := override_to_dict.

(** [from_dict] of the dataclass: [value] is required, [lock] falls back to
    the field's default [None] (line 43) when its key is missing. *)
Definition from_dict (d : gmap string pyval) : option BlockAccountBalance :=
  match d !! "value" with
  | Some (VInt v) =>
      match d !! "lock" with
      | None | Some VNone => Some {| value := v; lock := None |}
      | Some (VStr s) => Some {| value := v; lock := Some s |}
      | Some (VInt _) => None
      end
  | _ => None
  end.

End Serialization.

(** ** Well-formed stores and the resolution window *)

(** The blocks of [l] are numbered [n], [n+1], ... in order. *)
Fixpoint numbered_from (n : Z) (l : list Block) : Prop :=
  match l with
  | [] => True
  | b :: l' => number_of b = n /\ numbered_from (n + 1) l'
  end.

(** Block numbers are sequential (spec, data model). *)
Definition sequential (l : list Block) : Prop :=
  match l with
  | [] => True
  | b :: _ => numbered_from (number_of b) l
  end.

(** The blocks of [l] are numbered [h], [h-1], ... in order. *)
Fixpoint numbered_down (h : Z) (l : list Block) : Prop :=
  match l with
  | [] => True
  | b :: l' => number_of b = h /\ numbered_down (h - 1) l'
  end.

(** A well-formed store: block numbers are sequential and start at 0 or
    above, and the most recent snapshot is not ahead of the head block. *)
Definition well_formed (bc : MemoryBlockchain) : Prop :=
  sequential (blocks bc)
  /\ (forall first, head (blocks bc) = Some first -> 0 <= number_of first)
  /\ (forall snapshot k head_block,
        get_last_account_root_file bc = Some snapshot ->
        last_block_number snapshot = Some k ->
        last (blocks bc) = Some head_block ->
        k <= number_of head_block).

(** A valid target block number: absent (the head), or from -1 up to the head
    block's number. *)
Definition valid_target (bc : MemoryBlockchain) (target : option Z) : Prop :=
  match target with
  | None => True
  | Some t =>
      -1 <= t
      /\ forall head_block, last (blocks bc) = Some head_block ->
                            t <= number_of head_block
  end.

(** The scan window of a target point, newest block first: the blocks at or
    below the target (all blocks when it is the head) and above the snapshot's
    last block number (all blocks for the genesis snapshot). *)
Definition in_window (snapshot_block_number target : option Z) (b : Block)
  : bool :=
  match target with None => true | Some t => number_of b <=? t end
  && match snapshot_block_number with
     | None => true
     | Some k => k <? number_of b
     end.

Definition scan_window (bc : MemoryBlockchain) (snapshot : AccountRootFile)
    (target : option Z) : list Block :=
  List.filter (in_window (last_block_number snapshot) target)
    (reverse (blocks bc)).

(** The state of [account] in the first block of [window] that mentions it. *)
Definition newest_mention (account : string) (window : list Block)
  : option AccountState :=
  head (omap (fun b => get_balance (message b) account) window).

(** The lock of [account] in the first block of [window] whose entry for the
    account carries a non-empty lock. *)
Definition newest_lock (account : string) (window : list Block)
  : option string :=
  head (omap (fun b =>
                match get_balance (message b) account with
                | Some st =>
                    if truthy (balance_lock st) then balance_lock st else None
                | None => None
                end) window).

(** [s] occurs in [t]. *)
Definition occurs_in (s t : string) : Prop :=
  exists before after, t = before +:+ s +:+ after.

(** The reference point of block [N]'s timestamp: the timestamp of block
    [N-1] when the store returns that block, otherwise the
    [last_block_timestamp] of the looked-up snapshot, whose [last_block_number]
    is exactly [N-1]. *)
Definition reference_point
    (snapshot_lookup : MemoryBlockchain -> Z -> result (option AccountRootFile))
    (bc : MemoryBlockchain) (N : Z) (ref : datetime) : Prop :=
  (exists prev, get_block_by_number bc (N - 1) = Ok (Some prev)
                /\ timestamp (message prev) = PyDatetime ref)
  \/ (get_block_by_number bc (N - 1) = Ok None
      /\ exists snapshot, snapshot_lookup bc N = Ok (Some snapshot)
                          /\ last_block_number snapshot = Some (N - 1)
                          /\ last_block_timestamp snapshot = Some ref).

(** ** A small chain

    The genesis snapshot gives account A the balance 100 and the lock L0.
    Block 0 moves 30 from A to B, block 1 moves 10 from B to C. *)

Definition genesis : AccountRootFile := {|
  last_block_number := None;
  last_block_timestamp := None;
  get_balance_value := fun a => if String.eqb a "A" then Some 100 else Some 0;
  get_balance_lock := fun a => if String.eqb a "A" then Some "L0" else None
|}.

Definition request_0 : SignedChangeRequest := {|
  signer := "A";
  is_coin_transfer := true;
  scr_get_sent_amount := 30;
  scr_get_recipient_amount := fun a => if String.eqb a "B" then 30 else 0
|}.

Definition request_1 : SignedChangeRequest := {|
  signer := "B";
  is_coin_transfer := true;
  scr_get_sent_amount := 10;
  scr_get_recipient_amount := fun a => if String.eqb a "C" then 10 else 0
|}.

Definition naive (t : Z) : pyobj := PyDatetime {| tzinfo := None; instant := t |}.

Definition message_0 : BlockMessage := {|
  block_type := "ct";
  signed_change_request := Some request_0;
  timestamp := naive 1000;
  block_number := 0;
  block_identifier := "h0";
  updated_account_states :=
    [("A", {| balance := 70; balance_lock := Some "T1" |});
     ("B", {| balance := 30; balance_lock := None |})]
|}.

Definition message_1 : BlockMessage := {|
  block_type := "ct";
  signed_change_request := Some request_1;
  timestamp := naive 2000;
  block_number := 1;
  block_identifier := "h1";
  updated_account_states :=
    [("B", {| balance := 20; balance_lock := Some "T2" |});
     ("C", {| balance := 10; balance_lock := None |})]
|}.

Definition block_0 : Block := {| message := message_0 |}.
Definition block_1 : Block := {| message := message_1 |}.

Definition chain_0 : MemoryBlockchain :=
  {| account_root_files := [genesis]; blocks := [] |}.
Definition chain_1 : MemoryBlockchain :=
  {| account_root_files := [genesis]; blocks := [block_0] |}.
Definition chain_2 : MemoryBlockchain :=
  {| account_root_files := [genesis]; blocks := [block_0; block_1] |}.

(** The snapshot lookup of the small chain. *)
Definition closest_snapshot (bc : MemoryBlockchain) (n : Z)
  : result (option AccountRootFile) :=
  Ok (get_closest_account_root_file bc (Some n)).

(** Every block passes [block.validate]. *)
Definition accept_all (b : Block) (bc : MemoryBlockchain) : result unit := Ok tt.

(** A memory holding [block_0] as the caller's object, before and after
    [persist_block]. *)
Definition memory_0 : Objects.Memory :=
  {| Objects.objects := [block_0]; Objects.chain_blocks := [] |}.
Definition memory_1 : Objects.Memory :=
  {| Objects.objects := [block_0; block_0]; Objects.chain_blocks := [1%nat] |}.

(** ** Further source functions *)

(** [__init__] (memory_blockchain.py, lines 20-23), given the deserialized
    initial account root file. *)
Definition init (initial_account_root_file : AccountRootFile) : MemoryBlockchain :=
  {| account_root_files := [initial_account_root_file]; blocks := [] |}.

(** [persist_block] (lines 25-26) on the content of the store: the copy that
    is appended has the content of [block]. *)
Definition persist_block (bc : MemoryBlockchain) (block : Block)
  : MemoryBlockchain :=
  {| account_root_files := account_root_files bc;
     blocks := blocks bc ++ [block] |}.

(** [get_head_block] (lines 28-33) in the object-level store: the result is
    the last element of [self.blocks] itself. *)
Definition head_block_ref (mem : Objects.Memory) : option Objects.ref :=
  last (Objects.chain_blocks mem).

(** Every reference held by [self.blocks] points to an object. *)
Definition refs_valid (mem : Objects.Memory) : Prop :=
  forall r, r ∈ Objects.chain_blocks mem ->
            (r < length (Objects.objects mem))%nat.

(** The block number that continues the store [bc]: one more than the head's
    when there is a head; on an empty store any number from 0 that the most
    recent snapshot does not exceed. *)
Definition continues (bc : MemoryBlockchain) (block : Block) : Prop :=
  match last (blocks bc) with
  | Some head_block => number_of block = number_of head_block + 1
  | None =>
      0 <= number_of block
      /\ forall snapshot k,
           get_last_account_root_file bc = Some snapshot ->
           last_block_number snapshot = Some k -> k <= number_of block
  end.

(** The snapshot's last block number is below the number of [block]. *)
Definition snapshot_below (snapshot : AccountRootFile) (block : Block) : Prop :=
  match last_block_number snapshot with
  | Some k => k < number_of block
  | None => True
  end.

(** [AccountBalance] and [BlockAccountBalance] as [validate] sees them
    (account_balance.py): attributes of any type. *)
Module AccountBalanceObject.

Record AccountBalance : Type := {
  value : Serialization.pyval;
  lock : Serialization.pyval
}.

(** [isinstance(v, int)] and [isinstance(v, str)]. *)
Definition is_int (v : Serialization.pyval) : bool :=
  match v with Serialization.VInt _ => true | _ => false end.
Definition is_str (v : Serialization.pyval) : bool :=
  match v with Serialization.VStr _ => true | _ => false end.

(** [bool(v)]. *)
Definition py_bool (v : Serialization.pyval) : bool :=
  match v with
  | Serialization.VNone => false
  | Serialization.VInt z => negb (z =? 0)
  | Serialization.VStr s => truthy (Some s)
  end.

(** [AccountBalance.validate] (lines 21-36). *)
Definition validate (self : AccountBalance) (validate_lock : bool)
  : result unit :=
  if negb (is_int (value self)) then
    Raise (ValidationError "Account balance value must be an integer")
  else if validate_lock then
    if negb (is_str (lock self)) then
      Raise (ValidationError "Account balance lock must be a string")
    else if negb (py_bool (lock self)) then
      Raise (ValidationError "Account balance lock must be set")
    else Ok tt
  else Ok tt.

(** [BlockAccountBalance.validate] (lines 55-56). *)
Definition block_validate (self : AccountBalance) : result unit :=
  validate self false.

End AccountBalanceObject.

(** ** A block that is no coin transfer

    A request of another kind, signed by A, and a block 0 built on it whose
    updated account states are unrelated to the balances and locks of the
    genesis snapshot. *)

Definition request_nd : SignedChangeRequest := {|
  signer := "A";
  is_coin_transfer := false;
  scr_get_sent_amount := 0;
  scr_get_recipient_amount := fun _ => 0
|}.

Definition message_nd : BlockMessage := {|
  block_type := "nd";
  signed_change_request := Some request_nd;
  timestamp := naive 1000;
  block_number := 0;
  block_identifier := "h0";
  updated_account_states :=
    [("A", {| balance := 1000000; balance_lock := None |});
     ("B", {| balance := 999; balance_lock := Some "stray" |})]
|}.

(** The collaborators of [BlockMessage.validate] on the small chain: every
    request and account state is valid and the expected identifier is "h0". *)
Definition expect_h0 (bc : MemoryBlockchain) (n : Z) : result string := Ok "h0".
Definition request_valid (r : SignedChangeRequest) (bc : MemoryBlockchain)
    (n : Z) : result unit := Ok tt.
Definition state_valid (st : AccountState) : result unit := Ok tt.

(** * Properties *)

(** ** Block lookup by number *)

Lemma numbered_from_lookup l : forall f (i : nat) b,
  numbered_from f l -> l !! i = Some b -> number_of b = f + Z.of_nat i.
Proof.
  induction l as [|a l IH]; intros f i b Hn Hl; [done|].
  destruct Hn as [Ha Hn]. destruct i as [|i]; simpl in Hl.
  - inversion Hl; subst. lia.
  - rewrite (IH _ _ _ Hn Hl). lia.
Qed.

Lemma sequential_numbered l first :
  sequential l -> head l = Some first -> numbered_from (number_of first) l.
Proof. destruct l; simpl; [done|]. intros H [= ->]. exact H. Qed.

Lemma numbered_from_last l f b :
  numbered_from f l -> last l = Some b ->
  number_of b = f + Z.of_nat (length l) - 1.
Proof.
  intros Hn Hl. rewrite last_lookup in Hl.
  assert (length l <> 0%nat) by (destruct l; [done|simpl; lia]).
  rewrite (numbered_from_lookup _ _ _ _ Hn Hl). lia.
Qed.

Lemma py_getitem_neg_ok {A} (l : list A) (i : Z) :
  - Z.of_nat (length l) <= i < 0 ->
  py_getitem l i = match l !! Z.to_nat (i + Z.of_nat (length l)) with
                   | Some x => Ok x
                   | None => Raise IndexError
                   end.
Proof.
  intros H. unfold py_getitem. cbn zeta.
  destruct (Z.ltb_spec i 0); [|lia].
  destruct (Z.ltb_spec (i + Z.of_nat (length l)) 0); [lia|].
  destruct (Z.leb_spec (Z.of_nat (length l)) (i + Z.of_nat (length l))); [lia|].
  reflexivity.
Qed.

Lemma py_getitem_neg_out {A} (l : list A) (i : Z) :
  i < - Z.of_nat (length l) -> py_getitem l i = Raise IndexError.
Proof.
  intros H. unfold py_getitem. cbn zeta.
  destruct (Z.ltb_spec i 0); [|lia].
  destruct (Z.ltb_spec (i + Z.of_nat (length l)) 0); [|lia].
  reflexivity.
Qed.

Lemma py_getitem_first {A} (l : list A) (x : A) :
  head l = Some x -> py_getitem l 0 = Ok x.
Proof. destruct l; [done|]. intros [= ->]. reflexivity. Qed.

(** C5.  [get_block_by_number] on a sequentially numbered store: a negative
    number is a [ValueError]; an empty store answers [None] for every number
    from 0; a number above the head's answers [None]; a number below the first
    retained block's raises [MissingEarlierBlocksError]; every other number
    returns the stored block that carries it. *)
Theorem get_block_by_number_cases (bc : MemoryBlockchain) (n : Z) :
  sequential (blocks bc) ->
  (n < 0 -> exists msg, get_block_by_number bc n = Raise (ValueError msg))
  /\ (0 <= n -> blocks bc = [] -> get_block_by_number bc n = Ok None)
  /\ (forall first head_block,
        head (blocks bc) = Some first ->
        last (blocks bc) = Some head_block ->
        0 <= n ->
        (number_of head_block < n -> get_block_by_number bc n = Ok None)
        /\ (n < number_of first ->
            get_block_by_number bc n = Raise MissingEarlierBlocksError)
        /\ (number_of first <= n <= number_of head_block ->
            exists b, get_block_by_number bc n = Ok (Some b)
                      /\ b ∈ blocks bc /\ number_of b = n)).
Proof.
  intros Hseq. unfold get_block_by_number, block_by_number.
  split; [|split].
  - intros Hn. destruct (Z.ltb_spec n 0); [eauto|lia].
  - intros Hn Hnil. destruct (Z.ltb_spec n 0); [lia|]. by rewrite Hnil.
  - intros first hb Hfirst Hlast Hn.
    destruct (Z.ltb_spec n 0); [lia|]. rewrite Hlast. cbn zeta.
    pose proof (sequential_numbered _ _ Hseq Hfirst) as Hnum.
    pose proof (numbered_from_last _ _ _ Hnum Hlast) as Hhead.
    assert (length (blocks bc) <> 0%nat) as Hlen
      by (destruct (blocks bc); [done|simpl; lia]).
    split; [|split].
    + intros Hgt. destruct (Z.ltb_spec (number_of hb) n); [done|lia].
    + intros Hlt. destruct (Z.ltb_spec (number_of hb) n); [lia|].
      rewrite py_getitem_neg_out by lia.
      rewrite (py_getitem_first _ _ Hfirst).
      destruct (Z.ltb_spec n (number_of first)); [done|lia].
    + intros [Hlo Hhi]. destruct (Z.ltb_spec (number_of hb) n); [lia|].
      rewrite py_getitem_neg_ok by lia.
      destruct (blocks bc !! Z.to_nat (n - number_of hb - 1 + Z.of_nat (length (blocks bc))))
        as [b|] eqn:Hb.
      * exists b. split; [done|]. split.
        -- apply list_elem_of_lookup. eauto.
        -- rewrite (numbered_from_lookup _ _ _ _ Hnum Hb). lia.
      * apply lookup_ge_None in Hb. lia.
Qed.

Lemma get_block_by_number_cases_witness :
  exists b, get_block_by_number chain_2 1 = Ok (Some b)
            /\ b ∈ blocks chain_2 /\ number_of b = 1.
Proof.
  destruct (get_block_by_number_cases chain_2 1) as (_ & _ & H).
  - cbn. auto.
  - destruct (H block_0 block_1 eq_refl eq_refl) as (_ & _ & Hin).
    + lia.
    + apply Hin. cbn. lia.
Defined.

(** ** The scan window of the generator *)

Lemma numbered_from_app l1 : forall l2 f,
  numbered_from f (l1 ++ l2) <->
  numbered_from f l1 /\ numbered_from (f + Z.of_nat (length l1)) l2.
Proof.
  induction l1 as [|a l1 IH]; intros l2 f.
  - cbn [app length numbered_from]. replace (f + Z.of_nat 0) with f by lia.
    tauto.
  - cbn [app length numbered_from]. rewrite IH.
    replace (f + 1 + Z.of_nat (length l1)) with (f + Z.of_nat (S (length l1)))
      by lia. tauto.
Qed.

Lemma numbered_down_app l1 : forall l2 h,
  numbered_down h (l1 ++ l2) <->
  numbered_down h l1 /\ numbered_down (h - Z.of_nat (length l1)) l2.
Proof.
  induction l1 as [|a l1 IH]; intros l2 h.
  - cbn [app length numbered_down]. replace (h - Z.of_nat 0) with h by lia.
    tauto.
  - cbn [app length numbered_down]. rewrite IH.
    replace (h - 1 - Z.of_nat (length l1)) with (h - Z.of_nat (S (length l1)))
      by lia. tauto.
Qed.

Lemma numbered_from_reverse l : forall f,
  numbered_from f l ->
  numbered_down (f + Z.of_nat (length l) - 1) (reverse l).
Proof.
  induction l as [|a l IH]; intros f; [done|].
  cbn [numbered_from length]. intros [Ha Hl].
  rewrite reverse_cons. apply numbered_down_app. split.
  - replace (f + Z.of_nat (S (length l)) - 1)
      with (f + 1 + Z.of_nat (length l) - 1) by lia.
    by apply IH.
  - rewrite length_reverse. cbn [numbered_down]. split; [lia|done].
Qed.

Lemma numbered_down_drop l : forall h (d : nat),
  numbered_down h l -> numbered_down (h - Z.of_nat d) (drop d l).
Proof.
  induction l as [|a l IH]; intros h d Hl; [by destruct d|].
  destruct d as [|d]; cbn [drop].
  - replace (h - Z.of_nat 0) with h by lia. exact Hl.
  - destruct Hl as [_ Hl].
    replace (h - Z.of_nat (S d)) with (h - 1 - Z.of_nat d) by lia.
    by apply IH.
Qed.

Lemma filter_at_most l : forall h t,
  numbered_down h l ->
  List.filter (fun b => number_of b <=? t) l = drop (Z.to_nat (h - t)) l.
Proof.
  induction l as [|a l IH]; intros h t Hl; [by rewrite drop_nil|].
  destruct Hl as [Ha Hl]. simpl. rewrite (IH _ t Hl), Ha.
  destruct (Z.leb_spec h t).
  - replace (Z.to_nat (h - t)) with 0%nat by lia.
    replace (Z.to_nat (h - 1 - t)) with 0%nat by lia. reflexivity.
  - replace (Z.to_nat (h - t)) with (S (Z.to_nat (h - 1 - t))) by lia.
    reflexivity.
Qed.

Lemma filter_above l : forall h k,
  numbered_down h l ->
  List.filter (fun b => k <? number_of b) l = take (Z.to_nat (h - k)) l.
Proof.
  induction l as [|a l IH]; intros h k Hl; [by rewrite take_nil|].
  destruct Hl as [Ha Hl]. simpl. rewrite (IH _ k Hl), Ha.
  destruct (Z.ltb_spec k h).
  - replace (Z.to_nat (h - k)) with (S (Z.to_nat (h - 1 - k))) by lia.
    reflexivity.
  - replace (Z.to_nat (h - k)) with 0%nat by lia.
    replace (Z.to_nat (h - 1 - k)) with 0%nat by lia. by destruct l.
Qed.

Lemma filter_both {A} (p q : A -> bool) (l : list A) :
  List.filter (fun x => p x && q x) l = List.filter q (List.filter p l).
Proof.
  induction l as [|a l IH]; [done|]. simpl.
  destruct (p a); simpl; [destruct (q a)|]; by rewrite IH.
Qed.

Lemma filter_all {A} (l : list A) : List.filter (fun _ => true) l = l.
Proof. induction l; simpl; congruence. Qed.

Lemma filter_in_window l h (k t : option Z) :
  numbered_down h l ->
  match t with Some s => s <= h | None => True end ->
  let offset := match t with None => 0 | Some s => h - s end in
  let blocks_to_return :=
    match k with
    | None => Z.of_nat (length l) - offset
    | Some k => h - k - offset
    end in
  List.filter (in_window k t) l
  = take (Z.to_nat blocks_to_return) (drop (Z.to_nat offset) l).
Proof.
  intros Hl Ht offset btr. unfold in_window.
  rewrite filter_both.
  assert (List.filter
            (fun b => match t with None => true | Some t0 => number_of b <=? t0 end) l
          = drop (Z.to_nat offset) l) as ->.
  { subst offset. destruct t as [s|]; [by apply filter_at_most|].
    by rewrite filter_all. }
  pose proof (numbered_down_drop l h (Z.to_nat offset) Hl) as Hd.
  subst btr. destruct k as [k|].
  - rewrite (filter_above _ _ k Hd). f_equal.
    subst offset. destruct t; lia.
  - rewrite filter_all. rewrite take_ge; [done|].
    rewrite length_drop. lia.
Qed.

Lemma yield_checked_all k l :
  (forall b, b ∈ l -> match k with None => true | Some k => k <? number_of b end
                     = true) ->
  yield_checked k l = {| yielded := l; ending := None |}.
Proof.
  induction l as [|a l IH]; intros H; [done|]. simpl.
  rewrite (H a) by apply list_elem_of_here.
  rewrite IH; [done|]. intros b Hb. apply H. by apply list_elem_of_further.
Qed.

Lemma in_window_above k t b :
  in_window k t b = true ->
  match k with None => true | Some k => k <? number_of b end = true.
Proof. unfold in_window. by intros [_ H]%andb_prop. Qed.

Lemma first_hit_head {A B} (body : A -> option B) (l : list A) :
  first_hit body l = head (omap body l).
Proof.
  induction l as [|a l IH]; [done|]. simpl. by destruct (body a).
Qed.

Lemma numbered_from_ge l : forall f b,
  numbered_from f l -> b ∈ l -> f <= number_of b.
Proof.
  intros f b Hn [i Hi]%list_elem_of_lookup.
  rewrite (numbered_from_lookup _ _ _ _ Hn Hi). lia.
Qed.

Lemma closest_at_most bc n snapshot k :
  get_closest_account_root_file bc (Some n) = Some snapshot ->
  last_block_number snapshot = Some k -> k <= n.
Proof.
  unfold get_closest_account_root_file. intros [_ H]%find_some Hk.
  rewrite Hk in H. lia.
Qed.

Lemma filter_none {A} (p : A -> bool) (l : list A) :
  (forall x, x ∈ l -> p x = false) -> List.filter p l = [].
Proof.
  induction l as [|a l IH]; intros H; [done|]. simpl.
  rewrite (H a) by apply list_elem_of_here.
  apply IH. intros x Hx. apply H. by apply list_elem_of_further.
Qed.

(** On a well-formed store the generator yields exactly the scan window and
    ends normally. *)
Lemma generator_yields_window bc target snapshot :
  well_formed bc -> valid_target bc target ->
  get_closest_account_root_file bc target = Some snapshot ->
  get_blocks_until_account_root_file bc target
  = {| yielded := scan_window bc snapshot target; ending := None |}.
Proof.
  intros (Hseq & Hpos & Hsnap) Hvalid Hclosest.
  unfold get_blocks_until_account_root_file, scan_window.
  destruct (last (blocks bc)) as [hb|] eqn:Hlast.
  2:{ apply last_None in Hlast. rewrite Hlast. cbn.
      by destruct (match target with Some s => s <? 0 | None => false end). }
  destruct (head (blocks bc)) as [first|] eqn:Hfirst.
  2:{ apply head_None in Hfirst. by rewrite Hfirst in Hlast. }
  pose proof (sequential_numbered _ _ Hseq Hfirst) as Hnum.
  pose proof (numbered_from_last _ _ _ Hnum Hlast) as Hhead.
  pose proof (numbered_from_reverse _ _ Hnum) as Hdown.
  rewrite <- Hhead in Hdown.
  specialize (Hpos first eq_refl).
  destruct (match target with Some s => s <? 0 | None => false end) eqn:Hneg.
  { destruct target as [s|]; [|done]. apply Z.ltb_lt in Hneg.
    unfold gen_empty. f_equal. symmetry. apply filter_none.
    intros b Hb. rewrite elem_of_reverse in Hb. unfold in_window.
    pose proof (numbered_from_ge _ _ _ Hnum Hb).
    destruct (Z.leb_spec (number_of b) s); [lia|done]. }
  rewrite Hclosest. cbn zeta.
  assert (match target with Some s => 0 <= s <= number_of hb | None => True end)
    as Hrange.
  { destruct target as [s|]; [|done]. apply Z.ltb_ge in Hneg.
    destruct Hvalid as [_ Hv]. specialize (Hv hb Hlast). lia. }
  assert (match last_block_number snapshot with
          | Some k => k <= number_of hb
                      /\ match target with Some s => k <= s | None => True end
          | None => True
          end) as Hk.
  { destruct (last_block_number snapshot) as [k|] eqn:Ek; [|done].
    destruct target as [s|].
    - pose proof (closest_at_most _ _ _ _ Hclosest Ek). lia.
    - split; [|done]. exact (Hsnap snapshot k hb Hclosest Ek eq_refl). }
  assert (match target, last_block_number snapshot with
          | Some s, Some k => k <=? s
          | _, _ => true
          end = true) as ->.
  { destruct target as [s|], (last_block_number snapshot) as [k|]; try done.
    apply Z.leb_le. lia. }
  cbn [negb].
  set (offset := match target with None => 0 | Some s => number_of hb - s end).
  set (btr := match last_block_number snapshot with
              | None => Z.of_nat (length (blocks bc)) - offset
              | Some k => number_of hb - k - offset
              end).
  assert (0 <= offset) as Hoff by (subst offset; destruct target; lia).
  assert (0 <= offset + btr) as Hstop.
  { subst btr. destruct (last_block_number snapshot); lia. }
  unfold islice.
  destruct (Z.ltb_spec offset 0); [lia|].
  destruct (Z.ltb_spec (offset + btr) 0); [lia|]. cbn [orb].
  replace (offset + btr - offset) with btr by lia.
  pose proof (filter_in_window (reverse (blocks bc)) (number_of hb)
                (last_block_number snapshot) target Hdown) as Hwin.
  cbn zeta in Hwin. rewrite length_reverse in Hwin.
  fold offset in Hwin. fold btr in Hwin.
  rewrite <- Hwin by (destruct target; [lia|done]).
  apply yield_checked_all.
  intros b Hb%list_elem_of_In%filter_In. destruct Hb as [_ Hb].
  by apply in_window_above in Hb.
Qed.

Lemma first_hit_balance account window :
  first_hit (fun block =>
               match get_balance (message block) account with
               | Some st => Some (balance st)
               | None => None
               end) window
  = balance <$> newest_mention account window.
Proof.
  unfold newest_mention.
  induction window as [|b w IH]; [done|]. simpl.
  by destruct (get_balance (message b) account).
Qed.

(** C2.  On a well-formed store and for a valid target block number,
    [get_account_balance] returns the balance that the newest block of the
    scan window mentioning the account records for it, and the closest
    snapshot's value when no block of the window mentions the account; for
    block number -1 the generator yields no block and the snapshot's value is
    returned. *)
Theorem get_account_balance_resolves (bc : MemoryBlockchain) (account : string)
    (target : option Z) (snapshot : AccountRootFile) :
  well_formed bc ->
  valid_target bc target ->
  get_closest_account_root_file bc target = Some snapshot ->
  get_account_balance bc account target
  = Ok (match newest_mention account (scan_window bc snapshot target) with
        | Some st => Some (balance st)
        | None => get_balance_value snapshot account
        end)
  /\ (target = Some (-1) ->
      get_blocks_until_account_root_file bc target = gen_empty
      /\ get_account_balance bc account target
         = Ok (get_balance_value snapshot account)).
Proof.
  intros Hwf Hvalid Hclosest.
  assert (get_account_balance bc account target
          = Ok (match newest_mention account (scan_window bc snapshot target) with
                | Some st => Some (balance st)
                | None => get_balance_value snapshot account
                end)) as Hres.
  { unfold get_account_balance.
    assert (match target with Some n => n <? -1 | None => false end = false)
      as ->.
    { destruct target as [t|]; [|done]. destruct Hvalid as [Hlo _].
      apply Z.ltb_ge. lia. }
    unfold _get_balance_from_block.
    rewrite (generator_yields_window _ _ _ Hwf Hvalid Hclosest).
    unfold for_return. cbn [yielded ending].
    rewrite first_hit_balance.
    destruct (newest_mention account (scan_window bc snapshot target)); cbn.
    - reflexivity.
    - unfold _get_balance_from_account_root_file. by rewrite Hclosest. }
  split; [exact Hres|].
  intros ->. split; [reflexivity|].
  unfold get_account_balance, _get_balance_from_block,
    _get_balance_from_account_root_file. rewrite Hclosest. reflexivity.
Qed.

Lemma get_account_balance_resolves_witness :
  get_account_balance chain_2 "B" (Some 0) = Ok (Some 30).
Proof.
  destruct (get_account_balance_resolves chain_2 "B" (Some 0) genesis) as [H _].
  - split; [|split].
    + cbn. auto.
    + intros first [= <-]. cbn. lia.
    + intros snapshot k hb [= <-]. discriminate.
  - split; [lia|]. intros hb [= <-]. cbn. lia.
  - reflexivity.
  - exact H.
Defined.

(** C4.  On a well-formed store [get_account_balance_lock] returns the lock
    of the newest block, scanning from the head down to but excluding the most
    recent snapshot's last block number, whose entry for the account carries a
    non-empty lock; entries without a lock are skipped; when there is no such
    block it returns the snapshot's lock for the account. *)
Theorem get_account_balance_lock_resolves (bc : MemoryBlockchain)
    (account : string) (snapshot : AccountRootFile) :
  well_formed bc ->
  get_closest_account_root_file bc None = Some snapshot ->
  get_account_balance_lock bc account
  = Ok (match newest_lock account (scan_window bc snapshot None) with
        | Some l => Some l
        | None => get_balance_lock snapshot account
        end).
Proof.
  intros Hwf Hclosest. unfold get_account_balance_lock.
  rewrite (generator_yields_window bc None snapshot Hwf I Hclosest).
  rewrite Hclosest.
  unfold for_return. cbn [yielded ending]. rewrite first_hit_head.
  fold (newest_lock account (scan_window bc snapshot None)).
  by destruct (newest_lock account (scan_window bc snapshot None)).
Qed.

Lemma get_account_balance_lock_resolves_witness :
  get_account_balance_lock chain_2 "A" = Ok (Some "T1").
Proof.
  rewrite (get_account_balance_lock_resolves chain_2 "A" genesis).
  - reflexivity.
  - split; [|split].
    + cbn. auto.
    + intros first [= <-]. cbn. lia.
    + intros snapshot k hb [= <-]. discriminate.
  - reflexivity.
Defined.

(** Scenario 1 of the spec: after block 0, A holds 70 and B holds 30, A's lock
    is the one block 0 rotated to, and A held 100 before block 0. *)
Example scenario_1 :
  get_account_balance chain_1 "A" (Some 0) = Ok (Some 70)
  /\ get_account_balance chain_1 "B" (Some 0) = Ok (Some 30)
  /\ get_account_balance_lock chain_1 "A" = Ok (Some "T1")
  /\ get_account_balance chain_1 "A" (Some (-1)) = Ok (Some 100).
Proof. repeat split. Qed.

(** On an empty store a block number beyond the (missing) head falls back to
    the snapshot. *)
Example empty_store_falls_back :
  get_account_balance chain_0 "A" (Some 7) = Ok (Some 100).
Proof. reflexivity. Qed.

(** C8.  With a non-empty store, asking [get_account_balance] for a block
    number above the head block's raises an exception: the snapshot's value is
    not returned. *)
Theorem get_account_balance_beyond_head (bc : MemoryBlockchain)
    (account : string) (n : Z) (head_block : Block) :
  last (blocks bc) = Some head_block ->
  0 <= n ->
  number_of head_block < n ->
  exists e, get_account_balance bc account (Some n) = Raise e
            /\ (e = AssertionError \/ exists msg, e = ValueError msg).
Proof.
  intros Hlast Hn Hgt.
  unfold get_account_balance, _get_balance_from_block,
    _get_balance_from_account_root_file, get_blocks_until_account_root_file.
  destruct (Z.ltb_spec n (-1)); [lia|].
  destruct (Z.ltb_spec n 0); [lia|].
  rewrite Hlast.
  destruct (get_closest_account_root_file bc (Some n)) as [snapshot|] eqn:Hc.
  2:{ cbn. eauto. }
  cbn zeta.
  destruct (negb match last_block_number snapshot with
                 | Some k => k <=? n
                 | None => true
                 end).
  { cbn. eauto. }
  unfold islice.
  destruct (Z.ltb_spec (number_of head_block - n) 0); [|lia].
  cbn. eauto.
Qed.

Lemma get_account_balance_beyond_head_witness :
  exists e, get_account_balance chain_2 "A" (Some 5) = Raise e
            /\ (e = AssertionError \/ exists msg, e = ValueError msg).
Proof.
  apply (get_account_balance_beyond_head chain_2 "A" 5 block_1).
  - reflexivity.
  - lia.
  - cbn. lia.
Defined.

(** ** Per-account lock and balance rules *)

Lemma append_assoc_string (a b c : string) : (a +:+ b) +:+ c = a +:+ (b +:+ c).
Proof.
  induction a as [|x a IH]; [done|].
  change (String x ((a +:+ b) +:+ c) = String x (a +:+ (b +:+ c))).
  by rewrite IH.
Qed.

Lemma occurs_in_prefix s a : occurs_in s (s +:+ a).
Proof. exists EmptyString, a. reflexivity. Qed.

Lemma occurs_in_append_l s t u : occurs_in s t -> occurs_in s (t +:+ u).
Proof.
  intros (p & q & ->). exists p, (q +:+ u).
  by rewrite !append_assoc_string.
Qed.

Lemma occurs_in_append_r s t u : occurs_in s t -> occurs_in s (u +:+ t).
Proof.
  intros (p & q & ->). exists (u +:+ p), q.
  by rewrite !append_assoc_string.
Qed.

Lemma append_empty_string (s : string) : s +:+ EmptyString = s.
Proof.
  induction s as [|x s IH]; [done|].
  change (String x (s +:+ EmptyString) = String x s). by rewrite IH.
Qed.

Lemma occurs_in_suffix s a : occurs_in s (a +:+ s).
Proof. exists a, EmptyString. by rewrite append_empty_string. Qed.

Lemma truthy_false l : truthy l = false <-> l = None \/ l = Some EmptyString.
Proof.
  destruct l as [[|c s]|]; simpl; split; intros H; auto; try discriminate.
  - destruct H as [H|H]; discriminate.
Qed.

Lemma truthy_true l :
  truthy l = true <-> exists s, l = Some s /\ s <> EmptyString.
Proof.
  destruct l as [[|c s]|]; simpl; split; intros H; try discriminate; eauto.
  - destruct H as (s & [= <-] & Hs). done.
  - by destruct H as (s & ? & _).
Qed.

(** The lock rule of one entry.  For an entry [(account, state)] checked on
    behalf of a block whose request is [r]: when the account is the request's signer the lock check
    passes exactly when the state's lock is a non-empty string equal to
    [make_balance_lock] of the signed change request; when it is another
    account the check passes exactly when the state carries no lock ([None] or
    the empty string); every failure is a [ValidationError]. *)
Theorem validate_updated_account_balance_lock_rule
    (make_balance_lock : option SignedChangeRequest -> string)
    (m : BlockMessage) (r : SignedChangeRequest)
    (account : string) (state : AccountState) :
  signed_change_request m = Some r ->
  let result :=
    validate_updated_account_balance_lock make_balance_lock m account state
      (String.eqb account (signer r)) in
  (account = signer r ->
   (result = Ok tt <->
    exists l, balance_lock state = Some l /\ l <> EmptyString
              /\ l = make_balance_lock (Some r)))
  /\ (account <> signer r ->
      (result = Ok tt <->
       balance_lock state = None \/ balance_lock state = Some EmptyString))
  /\ (result <> Ok tt -> exists msg, result = Raise (ValidationError msg)).
Proof.
  intros Hr result. subst result.
  unfold validate_updated_account_balance_lock. rewrite Hr.
  destruct (String.eqb_spec account (signer r)) as [Heq|Hne].
  - unfold validate_not_empty, validate_type_str, validate_exact_value.
    split; [|split]; [intros _|done|].
    + destruct (truthy (balance_lock state)) eqn:Ht; cbn.
      * apply truthy_true in Ht as (l & Hl & Hne). rewrite Hl. cbn.
        destruct (decide (Some l = Some (make_balance_lock (Some r)))) as [E|E].
        -- split; [|done]. intros _. exists l. inversion E. repeat split; congruence.
        -- split; [done|]. intros (l' & [= <-] & _ & ->). done.
      * split; [done|]. intros (l & Hl & Hne & _).
        assert (truthy (balance_lock state) = true) as Ht'
          by (apply truthy_true; eauto).
        congruence.
    + destruct (truthy (balance_lock state)); cbn; [|eauto].
      destruct (balance_lock state); cbn; [|eauto].
      destruct (decide _); [done|eauto].
  - unfold validate_empty. split; [done|]. split.
    + intros _. rewrite <- truthy_false.
      destruct (truthy (balance_lock state)); split; congruence.
    + destruct (truthy (balance_lock state)); [eauto|done].
Qed.

Lemma validate_updated_account_balance_lock_rule_witness :
  validate_updated_account_balance_lock (fun _ => "T1") message_0 "A"
    {| balance := 70; balance_lock := Some "T1" |} true = Ok tt.
Proof.
  destruct (validate_updated_account_balance_lock_rule (fun _ => "T1")
              message_0 request_0 "A"
              {| balance := 70; balance_lock := Some "T1" |} eq_refl)
    as (H & _ & _).
  apply (H eq_refl). exists "T1". repeat split. discriminate.
Defined.

(** The balance rule of one entry.  For an entry [(account, state)] checked
    on behalf of block [N], with [prior] the account's balance resolved as of block [N-1]: for the request's
    signer the balance check passes exactly when [prior] is strictly positive
    and the state's balance is [prior] minus the sent amount; for any other
    account it passes exactly when the state's balance is [prior] plus the
    account's recipient amount; a mismatch raises a [ValidationError] whose
    message names the account, the expected value and the actual value. *)
Theorem validate_updated_account_balance_rule
    (m : BlockMessage) (r : SignedChangeRequest) (bc : MemoryBlockchain)
    (account : string) (state : AccountState) :
  signed_change_request m = Some r ->
  let prior := get_account_balance bc account (Some (block_number m - 1)) in
  let is_sender := String.eqb account (signer r) in
  let result := validate_updated_account_balance m account state bc is_sender in
  (account = signer r ->
   (result = Ok tt <->
    exists p, prior = Ok (Some p) /\ 0 < p
              /\ balance state = p - scr_get_sent_amount r))
  /\ (account <> signer r ->
      (result = Ok tt <->
       exists p, prior = Ok (Some p)
                 /\ balance state = p + scr_get_recipient_amount r account))
  /\ (forall p,
        prior = Ok (Some p) ->
        (account = signer r -> 0 < p) ->
        let expected :=
          if is_sender then p - scr_get_sent_amount r
          else p + scr_get_recipient_amount r account in
        balance state <> expected ->
        exists msg, result = Raise (ValidationError msg)
                    /\ occurs_in account msg
                    /\ occurs_in (pretty expected) msg
                    /\ occurs_in (pretty (balance state)) msg).
Proof.
  intros Hr prior is_sender result. subst prior is_sender result.
  unfold validate_updated_account_balance, get_sent_amount,
    get_recipient_amount. rewrite Hr.
  destruct (get_account_balance bc account (Some (block_number m - 1)))
    as [[p|]|e] eqn:Hprior; cbn [mbind result_bind].
  2:{ destruct (String.eqb_spec account (signer r)); cbn;
      (split; [|split]); try done; intros _; split; try done;
      intros (p & [=] & _). }
  2:{ (split; [|split]); try done; intros _; split; try done;
      intros (p & [=] & _). }
  unfold validate_greater_than_zero, validate_exact_value, py_sub, py_add.
  destruct (String.eqb_spec account (signer r)) as [Heq|Hne].
  - split; [|split]; [intros _|done|].
    + destruct (Z.leb_spec p 0); cbn.
      * split; [done|]. intros (p' & [= <-] & ? & _). lia.
      * destruct (decide (balance state = p - scr_get_sent_amount r)).
        -- split; [|done]. intros _. exists p. auto.
        -- split; [done|]. intros (p' & [= <-] & _ & ?). done.
    + intros p' [= <-] Hpos Hmis. specialize (Hpos Heq).
      destruct (Z.leb_spec p 0); [lia|]. cbn.
      destruct (decide _) as [E|_]; [done|].
      eexists. split; [reflexivity|]. unfold exact_value_message.
      split; [|split].
      * apply occurs_in_append_l, occurs_in_append_l.
        do 3 apply occurs_in_append_r. apply occurs_in_suffix.
      * do 2 apply occurs_in_append_r. apply occurs_in_prefix.
      * do 3 apply occurs_in_append_r. apply occurs_in_suffix.
  - split; [done|]. split.
    + intros _. cbn. destruct (decide _) as [E|E].
      * split; [|done]. intros _. exists p. auto.
      * split; [done|]. intros (p' & [= <-] & ?). done.
    + intros p' [= <-] _ Hmis. cbn.
      destruct (decide _) as [E|_]; [done|].
      eexists. split; [reflexivity|]. unfold exact_value_message.
      split; [|split].
      * apply occurs_in_append_l, occurs_in_append_l.
        do 3 apply occurs_in_append_r. apply occurs_in_suffix.
      * do 2 apply occurs_in_append_r. apply occurs_in_prefix.
      * do 3 apply occurs_in_append_r. apply occurs_in_suffix.
Qed.

Lemma validate_updated_account_balance_rule_witness :
  validate_updated_account_balance message_1 "B"
    {| balance := 20; balance_lock := Some "T2" |} chain_1 true = Ok tt.
Proof.
  destruct (validate_updated_account_balance_rule message_1 request_1 chain_1
              "B" {| balance := 20; balance_lock := Some "T2" |} eq_refl)
    as (H & _ & _).
  apply (H eq_refl). exists 30. repeat split; reflexivity.
Defined.

(** The loop over the entries passes only if every entry passes both rules,
    with [is_sender] computed as [account_number == signer]. *)
Lemma validate_account_entries_each
    (account_state_validate : AccountState -> result unit)
    (make_balance_lock : option SignedChangeRequest -> string)
    (m : BlockMessage) (bc : MemoryBlockchain) (signer : string)
    (items : list (string * AccountState)) :
  validate_account_entries account_state_validate make_balance_lock m bc
    signer items = Ok tt ->
  forall account state, (account, state) ∈ items ->
    validate_updated_account_balance_lock make_balance_lock m account state
      (String.eqb account signer) = Ok tt
    /\ validate_updated_account_balance m account state bc
         (String.eqb account signer) = Ok tt.
Proof.
  induction items as [|[a st] items IH]; intros Hrun account state Hin.
  - by apply elem_of_nil in Hin.
  - cbn [validate_account_entries] in Hrun.
    destruct (validate_not_empty _ _) as [[]|]; [|done].
    destruct (validate_type_str _ _) as [[]|]; [|done].
    destruct (account_state_validate st) as [[]|]; [|done].
    cbn [mbind result_bind] in Hrun.
    destruct (validate_updated_account_balance_lock _ m a st _)
      as [[]|] eqn:Hlock; [|done].
    destruct (validate_updated_account_balance m a st bc _)
      as [[]|] eqn:Hbal; [|done].
    cbn [mbind result_bind] in Hrun.
    apply elem_of_cons in Hin as [[= -> ->]|Hin]; [done|].
    by apply IH.
Qed.

(** Block 0 of the small chain passes the checks of its updated account
    states on the genesis chain; with A's new balance declared as 100 instead
    of 70 (scenario 3 of the spec) the balance rule rejects A's entry. *)
Example scenario_3 :
  validate_updated_account_states (fun _ => Ok tt) (fun _ => "T1")
    message_0 chain_0 = Ok tt
  /\ validate_updated_account_balance message_0 "A"
       {| balance := 100; balance_lock := Some "T1" |} chain_0 true
     = Raise (ValidationError
         "block message sender account A balance must be equal to 70 but is 100").
Proof. split; reflexivity. Qed.

(** ** Timestamp validation *)

(** C6 as stated fails for block 0: its timestamp check passes on the genesis
    chain although block -1 is not retained and no snapshot has
    [last_block_number] -1, so there is no reference point at all. *)
Lemma validate_timestamp_block_0_no_reference :
  validate_timestamp closest_snapshot message_0 chain_0 = Ok tt
  /\ ~ (exists ref,
          reference_point closest_snapshot chain_0 (block_number message_0) ref).
Proof.
  split; [reflexivity|].
  intros (ref & [(prev & H & _)|(_ & snapshot & H & Hk & _)]).
  - discriminate H.
  - cbv in H. inversion H; subst. discriminate Hk.
Qed.

(** C6, amended.  [validate_timestamp] passes exactly when the timestamp is a
    naive datetime and either the block number is not positive (block 0 has no
    reference point) or the timestamp is strictly greater than the reference
    point of block [N], itself a naive datetime: the timestamp of block [N-1]
    when the store returns it, otherwise the [last_block_timestamp] of the
    snapshot whose [last_block_number] is exactly [N-1].  In every other case
    the validation raises. *)
Theorem validate_timestamp_rule
    (snapshot_lookup : MemoryBlockchain -> Z -> result (option AccountRootFile))
    (m : BlockMessage) (bc : MemoryBlockchain) :
  (validate_timestamp snapshot_lookup m bc = Ok tt <->
   exists ts, timestamp m = PyDatetime ts /\ tzinfo ts = None
     /\ (block_number m <= 0
         \/ exists ref,
              reference_point snapshot_lookup bc (block_number m) ref
              /\ tzinfo ref = None /\ instant ref < instant ts))
  /\ (validate_timestamp snapshot_lookup m bc <> Ok tt ->
      raises (validate_timestamp snapshot_lookup m bc))
  /\ ((forall ts, timestamp m = PyDatetime ts -> tzinfo ts <> None) ->
      exists msg,
        validate_timestamp snapshot_lookup m bc = Raise (ValidationError msg)).
Proof.
  split; [|split].
  2:{ destruct (validate_timestamp snapshot_lookup m bc) as [[]|e]; [done|].
      intros _. by exists e. }
  2:{ unfold validate_timestamp. intros Hnot.
      destruct (timestamp m) as [| |ts]; [eauto|eauto|].
      destruct (tzinfo ts) eqn:Htz; [eauto|]. by destruct (Hnot ts eq_refl). }
  unfold validate_timestamp, reference_point.
  destruct (timestamp m) as [| |ts].
  1,2: split; [done|]; by intros (ts & [=] & _).
  destruct (tzinfo ts) as [tz|] eqn:Htz.
  { split; [done|]. intros (ts' & [= <-] & Htz' & _). congruence. }
  destruct (Z.ltb_spec 0 (block_number m)) as [Hpos|Hnpos].
  2:{ split; [|done]. intros _. exists ts. auto. }
  set (N := block_number m) in *.
  destruct (get_block_by_number bc (N - 1)) as [[prev|]|e] eqn:Hprev;
    cbn [mbind result_bind].
  - (* block N-1 is returned by the store *)
    destruct (timestamp (message prev)) as [| |ref] eqn:Href; cbn.
    1,2: split; [done|];
      intros (ts' & [= <-] & _ & [?|(ref & [(p & [= <-] & Hp)|([=] & _)] & _)]);
      [lia|congruence].
    destruct (tzinfo ref) as [tz|] eqn:Hreftz; cbn.
    { split; [done|].
      intros (ts' & [= <-] & _ & [?|(ref' & [(p & [= <-] & Hp)|([=] & _)] & Hn & _)]);
        [lia|]. congruence. }
    destruct (Z.leb_spec (instant ts) (instant ref)).
    + split; [done|].
      intros (ts' & [= <-] & _ & [?|(ref' & [(p & [= <-] & Hp)|([=] & _)] & _ & Hlt)]);
        [lia|]. rewrite Href in Hp. inversion Hp; subst. lia.
    + split; [|done]. intros _. exists ts. split; [done|]. split; [done|].
      right. exists ref. split; [|split; [done|lia]]. left. eauto.
  - (* block N-1 is not in the store: the snapshot gives the reference *)
    destruct (snapshot_lookup bc N) as [[snapshot|]|e] eqn:Hsnap;
      cbn [mbind result_bind].
    2,3: split; [done|];
      intros (ts' & [= <-] & _ & [?|(ref & [(p & [=] & _)|(_ & sn & [=] & _)] & _)]);
      lia.
    unfold is_initial.
    destruct (last_block_number snapshot) as [k|] eqn:Hk.
    2:{ split; [done|].
        intros (ts' & [= <-] & _ & [?|(ref & [(p & [=] & _)|(_ & sn & [= <-] & Hk' & _)] & _)]);
          [lia|congruence]. }
    destruct (bool_decide (Some k = Some (N - 1))) eqn:Hdec; cbn [negb].
    2:{ apply bool_decide_eq_false in Hdec. split; [done|].
        intros (ts' & [= <-] & _ & [?|(ref & [(p & [=] & _)|(_ & sn & [= <-] & Hk' & _)] & _)]);
          [lia|congruence]. }
    apply bool_decide_eq_true in Hdec.
    destruct (last_block_timestamp snapshot) as [ref|] eqn:Href.
    2:{ split; [done|].
        intros (ts' & [= <-] & _ & [?|(ref & [(p & [=] & _)|(_ & sn & [= <-] & _ & Ht)] & _)]);
          [lia|congruence]. }
    cbn. destruct (tzinfo ref) as [tz|] eqn:Hreftz; cbn.
    { split; [done|].
      intros (ts' & [= <-] & _ & [?|(ref' & [(p & [=] & _)|(_ & sn & [= <-] & _ & Ht)] & Hn & _)]);
        [lia|congruence]. }
    destruct (Z.leb_spec (instant ts) (instant ref)).
    + split; [done|].
      intros (ts' & [= <-] & _ & [?|(ref' & [(p & [=] & _)|(_ & sn & [= <-] & _ & Ht)] & _ & Hlt)]);
        [lia|]. rewrite Href in Ht. inversion Ht; subst. lia.
    + split; [|done]. intros _. exists ts. split; [done|]. split; [done|].
      right. exists ref. split; [|split; [done|lia]]. right.
      split; [done|]. exists snapshot. by rewrite Hk.
  - (* the lookup of block N-1 raises *)
    split; [done|].
    intros (ts' & [= <-] & _ & [?|(ref & [(p & [=] & _)|([=] & _)] & _)]). lia.
Qed.

(** ** Chain validation *)

(** The window arguments of [validate] never reach [validate_blocks]. *)
Lemma validate_ignores_window
    (block_validate : Block -> MemoryBlockchain -> result unit)
    (bc : MemoryBlockchain) (block_offset block_limit : option Z) :
  validate block_validate bc block_offset block_limit
  = validate block_validate bc None None.
Proof. reflexivity. Qed.

(** Without snapshots [validate] raises before any block is looked at. *)
Lemma validate_without_snapshots
    (block_validate : Block -> MemoryBlockchain -> result unit)
    (bc : MemoryBlockchain) (block_offset block_limit : option Z) :
  account_root_files bc = [] ->
  exists msg,
    validate block_validate bc block_offset block_limit
    = {| delegated := []; outcome := Raise (ValidationError msg) |}.
Proof. intros H. unfold validate, validate_account_root_files. rewrite H. eauto. Qed.

Lemma validate_each_all_pass
    (block_validate : Block -> MemoryBlockchain -> result unit)
    (bc : MemoryBlockchain) (l : list Block) :
  (forall b, b ∈ l -> block_validate b bc = Ok tt) ->
  validate_each block_validate bc l = {| delegated := l; outcome := Ok tt |}.
Proof.
  induction l as [|a l IH]; intros H; [done|]. simpl.
  rewrite (H a) by apply list_elem_of_here.
  rewrite IH; [done|]. intros b Hb. apply H. by apply list_elem_of_further.
Qed.

(** With both bounds given and every block valid, [validate_blocks] hands
    exactly the blocks at positions [offset, offset+limit) to
    [block.validate], and then raises [NotImplementedError]. *)
Lemma validate_blocks_window
    (block_validate : Block -> MemoryBlockchain -> result unit)
    (bc : MemoryBlockchain) (offset limit : Z) :
  0 <= offset -> 0 <= limit ->
  (forall b, b ∈ blocks bc -> block_validate b bc = Ok tt) ->
  validate_blocks block_validate bc (Some offset) (Some limit)
  = {| delegated := take (Z.to_nat limit) (drop (Z.to_nat offset) (blocks bc));
       outcome := Raise NotImplementedError |}.
Proof.
  intros Ho Hl Hall. unfold validate_blocks, islice. cbn [or_zero].
  rewrite !bool_decide_eq_true_2 by done. cbn [orb].
  destruct (Z.ltb_spec offset 0); [lia|].
  destruct (Z.ltb_spec (offset + limit) 0); [lia|]. cbn [orb].
  replace (offset + limit - offset) with limit by lia.
  rewrite validate_each_all_pass; [done|].
  intros b Hb. apply Hall.
  apply (subseteq_take (Z.to_nat limit)) in Hb.
  by apply (subseteq_drop (Z.to_nat offset)) in Hb.
Qed.

(** C7.  [validate] with the window (1, 1) on a store of two valid blocks
    hands both blocks to [block.validate], where [validate_blocks] with the
    same window hands over block 1 only; with an offset and no limit,
    [validate_blocks] hands over the blocks before the offset. *)
Theorem validate_window_not_forwarded :
  delegated (validate accept_all chain_2 (Some 1) (Some 1)) = [block_0; block_1]
  /\ outcome (validate accept_all chain_2 (Some 1) (Some 1))
     = Raise NotImplementedError
  /\ delegated (validate_blocks accept_all chain_2 (Some 1) (Some 1)) = [block_1]
  /\ delegated (validate_blocks accept_all chain_2 (Some 1) None) = [block_0].
Proof. repeat split. Qed.

(** ** Append and read back *)

Lemma omap_lookup_ext (objs objs' : list Block) (refs : list Objects.ref) :
  (forall r, r ∈ refs -> objs' !! r = objs !! r) ->
  omap (fun r => objs' !! r) refs = omap (fun r => objs !! r) refs.
Proof.
  induction refs as [|a refs IH]; intros H; [done|]. simpl.
  rewrite (H a) by apply list_elem_of_here.
  change (list_omap _ _ ?f ?l) with (omap f l).
  rewrite IH; [done|]. intros r Hr. apply H. by apply list_elem_of_further.
Qed.

(** C9 as stated fails: the lookup returns the stored object itself, and a
    change made through the returned reference is a change of the stored
    state. *)
Lemma lookup_result_aliases_store :
  Objects.persist_block memory_0 0%nat = Some memory_1
  /\ Objects.get_block_by_number memory_1 0 = Ok (Some 1%nat)
  /\ Objects.stored memory_1 = [block_0]
  /\ Objects.stored (Objects.mutate memory_1 1%nat (fun _ => block_1))
     = [block_1]
  /\ Objects.stored (Objects.mutate memory_1 1%nat (fun _ => block_1))
     <> Objects.stored memory_1.
Proof. repeat split. discriminate. Qed.

(** C9, amended.  After [persist_block] of a block with a non-negative block
    number, [get_block_by_number] at that number returns a reference to a new
    object whose content equals the block's; changing the caller's block
    afterwards leaves that copy untouched, and leaves the whole stored state
    untouched when the caller's object is not itself an element of the store.
    The reference returned by the lookup is the store's own last element. *)
Theorem persist_block_round_trip (mem : Objects.Memory) (block : Objects.ref)
    (content : Block) :
  Objects.objects mem !! block = Some content ->
  0 <= number_of content ->
  exists mem' copy,
    Objects.persist_block mem block = Some mem'
    /\ Objects.get_block_by_number mem' (number_of content) = Ok (Some copy)
    /\ Objects.objects mem' !! copy = Some content
    /\ copy <> block
    /\ last (Objects.chain_blocks mem') = Some copy
    /\ (forall f, Objects.objects (Objects.mutate mem' block f) !! copy
                  = Some content)
    /\ (block ∉ Objects.chain_blocks mem ->
        forall f, Objects.stored (Objects.mutate mem' block f)
                  = Objects.stored mem').
Proof.
  intros Hblock Hn.
  pose proof (lookup_lt_Some _ _ _ Hblock) as Hlt.
  set (copy := length (Objects.objects mem)).
  exists {| Objects.objects := (Objects.objects mem ++ [content])%list;
            Objects.chain_blocks := (Objects.chain_blocks mem ++ [copy])%list |}, copy.
  assert ((Objects.objects mem ++ [content])%list !! copy = Some content) as Hcopy.
  { subst copy. rewrite lookup_app_r by lia. by rewrite Nat.sub_diag. }
  assert (copy <> block) as Hne by (subst copy; lia).
  split; [|split; [|split; [|split; [|split; [|split]]]]].
  - unfold Objects.persist_block, Objects.deepcopy. by rewrite Hblock.
  - unfold Objects.get_block_by_number, block_by_number. cbn [Objects.chain_blocks].
    destruct (Z.ltb_spec (number_of content) 0); [lia|].
    rewrite last_snoc. cbn zeta.
    assert (Objects.number_at
              {| Objects.objects := (Objects.objects mem ++ [content])%list;
                 Objects.chain_blocks := (Objects.chain_blocks mem ++ [copy])%list |}
              copy = number_of content) as ->.
    { change (from_option number_of 0
                ((Objects.objects mem ++ [content])%list !! copy)
              = number_of content).
      by rewrite Hcopy. }
    rewrite Z.ltb_irrefl.
    rewrite py_getitem_neg_ok by (rewrite length_app; simpl; lia).
    rewrite length_app. simpl.
    replace (Z.to_nat (number_of content - number_of content - 1
                       + Z.of_nat (length (Objects.chain_blocks mem) + 1)))
      with (length (Objects.chain_blocks mem)) by lia.
    rewrite lookup_app_r by lia. by rewrite Nat.sub_diag.
  - exact Hcopy.
  - exact Hne.
  - cbn [Objects.chain_blocks]. apply last_snoc.
  - intros f. unfold Objects.mutate. cbn [Objects.objects].
    rewrite list_lookup_alter_ne by done. exact Hcopy.
  - intros Hnotin f. unfold Objects.stored, Objects.mutate.
    cbn [Objects.objects Objects.chain_blocks].
    apply omap_lookup_ext. intros r Hr.
    apply list_lookup_alter_ne. intros ->.
    apply elem_of_app in Hr as [Hr|Hr%list_elem_of_singleton]; [done|].
    by subst.
Qed.

Lemma persist_block_round_trip_witness :
  exists mem' copy,
    Objects.persist_block memory_0 0%nat = Some mem'
    /\ Objects.get_block_by_number mem' (number_of block_0) = Ok (Some copy)
    /\ Objects.objects mem' !! copy = Some block_0
    /\ copy <> 0%nat
    /\ last (Objects.chain_blocks mem') = Some copy
    /\ (forall f, Objects.objects (Objects.mutate mem' 0%nat f) !! copy
                  = Some block_0)
    /\ (0%nat ∉ Objects.chain_blocks memory_0 ->
        forall f, Objects.stored (Objects.mutate mem' 0%nat f)
                  = Objects.stored mem').
Proof.
  apply (persist_block_round_trip memory_0 0%nat block_0).
  - reflexivity.
  - cbn. lia.
Defined.

(** ** Serialization of BlockAccountBalance *)

(** C10.  [to_dict] has no 'lock' key when the lock is [None] and keeps the
    lock under 'lock' when it is set; [from_dict] of the serialized form of a
    record without a lock is that record, with lock [None]. *)
Theorem to_dict_omits_absent_lock (v : Z) :
  Serialization.to_dict {| Serialization.value := v;
                           Serialization.lock := None |} !! "lock" = None
  /\ (forall s,
        Serialization.to_dict {| Serialization.value := v;
                                 Serialization.lock := Some s |} !! "lock"
        = Some (Serialization.VStr s))
  /\ Serialization.from_dict
       (Serialization.to_dict {| Serialization.value := v;
                                 Serialization.lock := None |})
     = Some {| Serialization.value := v; Serialization.lock := None |}
  /\ (forall b, Serialization.from_dict (Serialization.to_dict b) = Some b).
Proof.
  assert (forall b, Serialization.from_dict (Serialization.to_dict b) = Some b)
    as Hround.
  { intros [v' [s|]]; unfold Serialization.to_dict, Serialization.override_to_dict,
      Serialization.super_to_dict, Serialization.from_dict; cbn.
    - rewrite lookup_insert_eq. cbn.
      rewrite lookup_insert_ne by done. rewrite lookup_insert_eq.
      by rewrite lookup_insert_eq.
    - rewrite lookup_insert_eq. cbn.
      rewrite lookup_delete_ne by done.
      rewrite lookup_insert_ne by done. rewrite lookup_insert_eq.
      by rewrite lookup_delete_eq. }
  split; [|split; [|split]].
  - unfold Serialization.to_dict, Serialization.override_to_dict,
      Serialization.super_to_dict. cbn.
    rewrite lookup_insert_eq. cbn. by rewrite lookup_delete_eq.
  - intros s. unfold Serialization.to_dict, Serialization.override_to_dict,
      Serialization.super_to_dict. cbn.
    rewrite lookup_insert_eq. cbn. by rewrite lookup_insert_eq.
  - apply Hround.
  - exact Hround.
Qed.

(** * Further properties *)

(** ** The block store on arbitrary content *)

Lemma py_getitem_ok_elem {A} (l : list A) (i : Z) (x : A) :
  py_getitem l i = Ok x -> x ∈ l.
Proof.
  unfold py_getitem. cbn zeta.
  destruct (_ || _); [done|].
  destruct (l !! _) as [y|] eqn:Hy; [|done].
  intros [= <-]. apply list_elem_of_lookup. eauto.
Qed.

Lemma py_getitem_raise {A} (l : list A) (i : Z) (e : exn) :
  py_getitem l i = Raise e -> e = IndexError.
Proof.
  unfold py_getitem. cbn zeta.
  destruct (_ || _); [by intros [= <-]|].
  destruct (l !! _); [done|by intros [= <-]].
Qed.

(** X1.  On any store, sequentially numbered or not: [get_block_by_number]
    answers [None] exactly for a number from 0 on an empty store or above the
    head's number; a block it returns is a stored block; the only exceptions
    it raises are [ValueError] (exactly for a negative number),
    [MissingEarlierBlocksError] (only for a number below the first block's)
    and [AssertionError]; an [IndexError] never escapes. *)
Theorem get_block_by_number_outcomes (bc : MemoryBlockchain) (n : Z) :
  (get_block_by_number bc n = Ok None <->
   0 <= n /\ (blocks bc = []
              \/ exists hb, last (blocks bc) = Some hb /\ number_of hb < n))
  /\ (forall b, get_block_by_number bc n = Ok (Some b) ->
                b ∈ blocks bc /\ 0 <= n)
  /\ ((exists msg, get_block_by_number bc n = Raise (ValueError msg)) <-> n < 0)
  /\ (forall e, get_block_by_number bc n = Raise e ->
        (exists msg, e = ValueError msg)
        \/ (e = MissingEarlierBlocksError
            /\ exists first, head (blocks bc) = Some first
                             /\ n < number_of first)
        \/ e = AssertionError).
Proof.
  unfold get_block_by_number, block_by_number.
  destruct (Z.ltb_spec n 0) as [Hneg|Hpos].
  { split; [|split; [|split]]; try done.
    - split; [done|]. intros [? _]. lia.
    - split; [done|]. eauto.
    - intros e [= <-]. eauto. }
  destruct (last (blocks bc)) as [hb|] eqn:Hlast.
  2:{ apply last_None in Hlast.
      split; [|split; [|split]]; try done.
      - split; [auto|done].
      - split; [by intros [? ?]|lia]. }
  cbn zeta.
  destruct (Z.ltb_spec (number_of hb) n) as [Hgt|Hle].
  { split; [|split; [|split]]; try done.
    - split; [|done]. intros _. split; [done|]. right. eauto.
    - split; [by intros [? ?]|lia]. }
  assert (blocks bc <> []) as Hne by (intros E; by rewrite E in Hlast).
  destruct (py_getitem (blocks bc) (n - number_of hb - 1)) as [b|e] eqn:Hget.
  { split; [|split; [|split]]; try done.
    - split; [done|]. intros [_ [?|(hb' & [= <-] & ?)]]; [done|lia].
    - intros b' [= <-]. split; [|done]. by eapply py_getitem_ok_elem.
    - split; [by intros [? ?]|lia]. }
  apply py_getitem_raise in Hget as ->.
  destruct (blocks bc) as [|first rest] eqn:Hblocks; [done|].
  rewrite (py_getitem_first (first :: rest) first eq_refl).
  destruct (Z.ltb_spec n (number_of first)).
  - split; [|split; [|split]]; try done.
    + split; [done|]. intros [_ [?|(hb' & [= <-] & ?)]]; [done|lia].
    + split; [by intros [? ?]|lia].
    + intros e [= <-]. right. left. split; [done|]. exists first. done.
  - split; [|split; [|split]]; try done.
    + split; [done|]. intros [_ [?|(hb' & [= <-] & ?)]]; [done|lia].
    + split; [by intros [? ?]|lia].
    + intros e [= <-]. auto.
Qed.

(** X2.  The head block is found under its own number: when the head block's
    number is not negative, [get_block_by_number] at that number returns the
    block that [get_head_block] returns, whatever the earlier blocks are. *)
Theorem get_block_by_number_head (bc : MemoryBlockchain) (hb : Block) :
  get_head_block bc = Some hb ->
  0 <= number_of hb ->
  get_block_by_number bc (number_of hb) = Ok (Some hb).
Proof.
  unfold get_head_block, get_block_by_number, block_by_number.
  intros Hlast Hpos. rewrite Hlast. cbn zeta.
  destruct (Z.ltb_spec (number_of hb) 0); [lia|].
  rewrite Z.ltb_irrefl.
  assert (length (blocks bc) <> 0%nat) as Hlen.
  { destruct (blocks bc); [done|simpl; lia]. }
  rewrite py_getitem_neg_ok by lia.
  rewrite last_lookup in Hlast.
  replace (Z.to_nat (number_of hb - number_of hb - 1
                     + Z.of_nat (length (blocks bc))))
    with (pred (length (blocks bc))) by lia.
  by rewrite Hlast.
Qed.

Lemma get_block_by_number_head_witness :
  get_block_by_number chain_2 (number_of block_1) = Ok (Some block_1).
Proof.
  apply (get_block_by_number_head chain_2 block_1).
  - reflexivity.
  - cbn. lia.
Defined.

(** ** Appending in the object-level store *)

(** X3.  [persist_block] is an append: on a store all of whose references are
    valid, the stored contents afterwards are the stored contents before,
    followed by the content of the persisted block; no object that existed
    before is changed (so the caller's block is not), the references stay
    valid, and [get_head_block] returns the new copy, which is not the
    caller's object. *)
Theorem persist_block_appends (mem : Objects.Memory) (block : Objects.ref)
    (content : Block) :
  refs_valid mem ->
  Objects.objects mem !! block = Some content ->
  exists mem',
    Objects.persist_block mem block = Some mem'
    /\ Objects.stored mem' = (Objects.stored mem ++ [content])%list
    /\ (forall r, (r < length (Objects.objects mem))%nat ->
                  Objects.objects mem' !! r = Objects.objects mem !! r)
    /\ refs_valid mem'
    /\ (exists copy, head_block_ref mem' = Some copy /\ copy <> block
                     /\ Objects.objects mem' !! copy = Some content).
Proof.
  intros Hvalid Hblock.
  pose proof (lookup_lt_Some _ _ _ Hblock) as Hlt.
  set (copy := length (Objects.objects mem)).
  exists {| Objects.objects := (Objects.objects mem ++ [content])%list;
            Objects.chain_blocks := (Objects.chain_blocks mem ++ [copy])%list |}.
  assert ((Objects.objects mem ++ [content])%list !! copy = Some content)
    as Hcopy.
  { subst copy. rewrite lookup_app_r by lia. by rewrite Nat.sub_diag. }
  split; [|split; [|split; [|split]]].
  - unfold Objects.persist_block, Objects.deepcopy. by rewrite Hblock.
  - unfold Objects.stored. cbn [Objects.objects Objects.chain_blocks].
    rewrite omap_app. f_equal.
    + apply omap_lookup_ext. intros r Hr. apply lookup_app_l. by apply Hvalid.
    + change (from_option (fun y => [y]) []
                ((Objects.objects mem ++ [content])%list !! copy)
              = [content]).
      by rewrite Hcopy.
  - intros r Hr. cbn [Objects.objects]. by apply lookup_app_l.
  - intros r. cbn [Objects.objects Objects.chain_blocks].
    rewrite length_app. simpl.
    intros [Hr|Hr%list_elem_of_singleton]%elem_of_app.
    + specialize (Hvalid r Hr). lia.
    + subst. lia.
  - exists copy. unfold head_block_ref. cbn [Objects.chain_blocks Objects.objects].
    split; [apply last_snoc|]. split; [subst copy; lia|exact Hcopy].
Qed.

Lemma persist_block_appends_witness :
  exists mem',
    Objects.persist_block memory_1 0%nat = Some mem'
    /\ Objects.stored mem' = (Objects.stored memory_1 ++ [block_0])%list
    /\ (forall r, (r < length (Objects.objects memory_1))%nat ->
                  Objects.objects mem' !! r = Objects.objects memory_1 !! r)
    /\ refs_valid mem'
    /\ (exists copy, head_block_ref mem' = Some copy /\ copy <> 0%nat
                     /\ Objects.objects mem' !! copy = Some block_0).
Proof.
  apply (persist_block_appends memory_1 0%nat block_0).
  - intros r Hr. cbn in Hr. apply list_elem_of_singleton in Hr. subst. cbn. lia.
  - reflexivity.
Defined.

(** ** The block generator on arbitrary stores *)

Lemma yield_checked_sound k l b :
  b ∈ yielded (yield_checked k l) ->
  b ∈ l /\ match k with None => True | Some k => k < number_of b end.
Proof.
  induction l as [|a l IH]; simpl; [by intros ?%elem_of_nil|].
  destruct (match k with None => true | Some k0 => k0 <? number_of a end)
    eqn:Hpass; simpl; [|by intros ?%elem_of_nil].
  intros [->|Hb]%elem_of_cons.
  - split; [apply list_elem_of_here|].
    destruct k; [by apply Z.ltb_lt|done].
  - destruct (IH Hb) as [? ?]. split; [by apply list_elem_of_further|done].
Qed.

Lemma yield_checked_ending k l e :
  ending (yield_checked k l) = Some e -> e = AssertionError.
Proof.
  induction l as [|a l IH]; simpl; [done|].
  destruct (match k with None => true | Some k0 => k0 <? number_of a end);
    simpl; [exact IH|by intros [= <-]].
Qed.

(** X4.  On any store and for any start block number, every block that
    [get_blocks_until_account_root_file] yields is a stored block whose number
    is above the closest snapshot's last block number, and nothing is yielded
    for a negative start or when no snapshot is found; the generator ends
    either normally or with an [AssertionError] or a [ValueError]. *)
Theorem generator_sound (bc : MemoryBlockchain) (start : option Z) :
  (forall b, b ∈ yielded (get_blocks_until_account_root_file bc start) ->
     b ∈ blocks bc
     /\ match start with Some s => 0 <= s | None => True end
     /\ exists snapshot,
          get_closest_account_root_file bc start = Some snapshot
          /\ snapshot_below snapshot b)
  /\ (forall e, ending (get_blocks_until_account_root_file bc start) = Some e ->
                e = AssertionError \/ exists msg, e = ValueError msg).
Proof.
  unfold get_blocks_until_account_root_file.
  destruct (match start with Some s => s <? 0 | None => false end) eqn:Hneg;
    [split; [by intros ? ?%elem_of_nil|done]|].
  destruct (last (blocks bc)) as [hb|];
    [|split; [by intros ? ?%elem_of_nil|done]].
  destruct (get_closest_account_root_file bc start) as [snapshot|];
    [|split; [by intros ? ?%elem_of_nil|done]].
  cbn zeta.
  destruct (negb _);
    [split; [by intros ? ?%elem_of_nil|intros e [= <-]; auto]|].
  unfold islice.
  destruct (_ || _);
    [split; [by intros ? ?%elem_of_nil|intros e [= <-]; eauto]|].
  split.
  - intros b Hb. split; [|split].
    + apply yield_checked_sound in Hb as [Hb _].
      apply subseteq_take in Hb. apply subseteq_drop in Hb.
      by rewrite elem_of_reverse in Hb.
    + destruct start as [s|]; [|done]. by apply Z.ltb_ge in Hneg.
    + exists snapshot. split; [done|].
      apply yield_checked_sound in Hb as [_ Hb]. unfold snapshot_below.
      by destruct (last_block_number snapshot).
  - intros e He. left. by eapply yield_checked_ending.
Qed.

(** ** Balance resolution: edges *)

(** X5.  Edges of [get_account_balance], for any account.  On any store a
    block number below -1 is a [ValueError], and for block number -1 the
    result is the recorded value of the snapshot found for -1 (an
    [AssertionError] when none is found).  On an empty store every block
    number from -1, however large, is answered from the snapshot found for it
    in the same way: nothing is rejected as lying beyond the head. *)
Theorem get_account_balance_edges (bc : MemoryBlockchain) (account : string) :
  (forall n, n < -1 ->
     exists msg, get_account_balance bc account (Some n) = Raise (ValueError msg))
  /\ get_account_balance bc account (Some (-1))
     = match get_closest_account_root_file bc (Some (-1)) with
       | Some snapshot => Ok (get_balance_value snapshot account)
       | None => Raise AssertionError
       end
  /\ (blocks bc = [] ->
      forall n, -1 <= n ->
        get_account_balance bc account (Some n)
        = match get_closest_account_root_file bc (Some n) with
          | Some snapshot => Ok (get_balance_value snapshot account)
          | None => Raise AssertionError
          end).
Proof.
  split; [|split].
  - intros n Hn. unfold get_account_balance.
    destruct (Z.ltb_spec n (-1)); [eauto|lia].
  - reflexivity.
  - intros Hempty n Hn.
    unfold get_account_balance, _get_balance_from_block,
      get_blocks_until_account_root_file, _get_balance_from_account_root_file.
    rewrite Hempty.
    destruct (Z.ltb_spec n (-1)); [lia|].
    by destruct (n <? 0).
Qed.

(** X6.  A freshly constructed blockchain has no head block, answers [None]
    to every block lookup from 0, passes [validate_account_root_files], and
    resolves the head balance and the head lock of every account from the
    initial account root file. *)
Theorem init_resolves_from_snapshot (initial : AccountRootFile)
    (account : string) :
  get_head_block (init initial) = None
  /\ (forall n, 0 <= n -> get_block_by_number (init initial) n = Ok None)
  /\ validate_account_root_files (init initial) = Ok tt
  /\ get_account_balance (init initial) account None
     = Ok (get_balance_value initial account)
  /\ get_account_balance_lock (init initial) account
     = Ok (get_balance_lock initial account)
  /\ (forall n, 0 <= n -> is_initial initial = true ->
        get_account_balance (init initial) account (Some n)
        = Ok (get_balance_value initial account)).
Proof.
  split; [reflexivity|]. split.
  { intros n Hn. unfold get_block_by_number, block_by_number.
    destruct (Z.ltb_spec n 0); [lia|reflexivity]. }
  split; [reflexivity|]. split; [reflexivity|]. split; [reflexivity|].
  intros n Hn Hinit. unfold is_initial in Hinit.
  unfold get_account_balance, _get_balance_from_block,
    get_blocks_until_account_root_file, _get_balance_from_account_root_file.
  destruct (Z.ltb_spec n (-1)); [lia|].
  destruct (Z.ltb_spec n 0); [lia|]. cbn.
  by destruct (last_block_number initial).
Qed.

(** X7.  Asking for the balance as of the head block's number is asking for
    the head balance: on a non-empty store whose head number is not negative
    and whose most recent snapshot is not past the head, both calls of
    [get_account_balance] give the same result. *)
Theorem get_account_balance_at_head (bc : MemoryBlockchain) (account : string)
    (hb : Block) :
  get_head_block bc = Some hb ->
  0 <= number_of hb ->
  (forall snapshot k,
     get_last_account_root_file bc = Some snapshot ->
     last_block_number snapshot = Some k -> k <= number_of hb) ->
  get_account_balance bc account (Some (number_of hb))
  = get_account_balance bc account None.
Proof.
  unfold get_head_block. intros Hlast Hpos Hsnap.
  assert (get_closest_account_root_file bc (Some (number_of hb))
          = get_closest_account_root_file bc None) as Hclosest.
  { unfold get_closest_account_root_file, get_account_root_files_reversed,
      get_last_account_root_file in *.
    destruct (account_root_files bc) as [|a l] using rev_ind; [done|].
    rewrite reverse_snoc, last_snoc in *. simpl.
    destruct (last_block_number a) as [k|] eqn:Hk; [|done].
    specialize (Hsnap a k eq_refl Hk).
    destruct (Z.leb_spec k (number_of hb)); [done|lia]. }
  unfold get_account_balance, _get_balance_from_block,
    _get_balance_from_account_root_file, get_blocks_until_account_root_file.
  rewrite Hclosest, Hlast.
  destruct (Z.ltb_spec (number_of hb) (-1)); [lia|].
  destruct (Z.ltb_spec (number_of hb) 0); [lia|].
  destruct (get_closest_account_root_file bc None) as [snapshot|] eqn:Hc;
    [|done].
  cbn zeta.
  assert (match last_block_number snapshot with
          | Some k => k <=? number_of hb
          | None => true
          end = true) as ->.
  { destruct (last_block_number snapshot) as [k|] eqn:Hk; [|done].
    apply Z.leb_le. by apply (Hsnap snapshot k). }
  by rewrite Z.sub_diag.
Qed.

Lemma get_account_balance_at_head_witness :
  get_account_balance chain_2 "B" (Some (number_of block_1))
  = get_account_balance chain_2 "B" None.
Proof.
  apply (get_account_balance_at_head chain_2 "B" block_1).
  - reflexivity.
  - cbn. lia.
  - intros snapshot k [= <-]. discriminate.
Defined.

(** ** Appending and resolving *)

Lemma balance_from_window bc account target snapshot :
  well_formed bc -> valid_target bc target ->
  get_closest_account_root_file bc target = Some snapshot ->
  get_account_balance bc account target
  = Ok (match newest_mention account (scan_window bc snapshot target) with
        | Some st => Some (balance st)
        | None => get_balance_value snapshot account
        end).
Proof.
  intros Hwf Hvalid Hclosest. unfold get_account_balance.
  assert (match target with Some n => n <? -1 | None => false end = false)
    as ->.
  { destruct target as [t|]; [|done]. destruct Hvalid as [Hlo _].
    apply Z.ltb_ge. lia. }
  unfold _get_balance_from_block, _get_balance_from_account_root_file.
  rewrite (generator_yields_window _ _ _ Hwf Hvalid Hclosest), Hclosest.
  unfold for_return. cbn [yielded ending]. rewrite first_hit_balance.
  by destruct (newest_mention account (scan_window bc snapshot target)).
Qed.

Lemma lock_from_window bc account snapshot :
  well_formed bc ->
  get_closest_account_root_file bc None = Some snapshot ->
  get_account_balance_lock bc account
  = Ok (match newest_lock account (scan_window bc snapshot None) with
        | Some l => Some l
        | None => get_balance_lock snapshot account
        end).
Proof.
  intros Hwf Hclosest. unfold get_account_balance_lock.
  rewrite (generator_yields_window bc None snapshot Hwf I Hclosest), Hclosest.
  unfold for_return. cbn [yielded ending]. rewrite first_hit_head.
  fold (newest_lock account (scan_window bc snapshot None)).
  by destruct (newest_lock account (scan_window bc snapshot None)).
Qed.

Lemma scan_window_persist bc b snapshot target :
  scan_window (persist_block bc b) snapshot target
  = ((if in_window (last_block_number snapshot) target b then [b] else [])
     ++ scan_window bc snapshot target)%list.
Proof.
  unfold scan_window, persist_block. cbn [blocks].
  rewrite reverse_snoc. simpl.
  by destruct (in_window (last_block_number snapshot) target b).
Qed.

Lemma in_window_head snapshot b :
  snapshot_below snapshot b ->
  in_window (last_block_number snapshot) None b = true.
Proof.
  unfold snapshot_below, in_window.
  destruct (last_block_number snapshot); [|done].
  intros H. by apply Z.ltb_lt.
Qed.

(** X8.  Appending a block whose number continues the store keeps the store
    well formed: the block numbers stay sequential and non-negative and the
    most recent snapshot stays at or below the head. *)
Theorem well_formed_persist_block (bc : MemoryBlockchain) (b : Block) :
  well_formed bc -> continues bc b -> well_formed (persist_block bc b).
Proof.
  intros (Hseq & Hpos & Hsnap) Hcont. unfold continues in Hcont.
  unfold well_formed, persist_block. cbn [blocks account_root_files].
  destruct (blocks bc) as [|first rest] eqn:Hblocks.
  - cbn in Hcont. destruct Hcont as [Hb Hk].
    split; [|split].
    + cbn. auto.
    + intros f [= <-]. exact Hb.
    + intros snapshot k hb Hs Hkk [= <-]. by apply (Hk snapshot k).
  - destruct (last (first :: rest)) as [hb|] eqn:Hlast.
    2:{ by apply last_None in Hlast. }
    pose proof (numbered_from_last _ _ _ Hseq Hlast) as Hhead.
    split; [|split].
    + change (numbered_from (number_of first) ((first :: rest) ++ [b])).
      apply numbered_from_app. split; [exact Hseq|].
      cbn [numbered_from]. split; [lia|done].
    + intros f [= <-]. by apply Hpos.
    + intros snapshot k hb'. rewrite last_snoc. intros Hs Hkk [= <-].
      specialize (Hsnap snapshot k hb Hs Hkk eq_refl). lia.
Qed.

Lemma well_formed_persist_block_witness : well_formed (persist_block chain_1 block_1).
Proof.
  apply well_formed_persist_block.
  - split; [|split].
    + cbn. auto.
    + intros first [= <-]. cbn. lia.
    + intros snapshot k hb [= <-]. discriminate.
  - reflexivity.
Defined.

(** X9.  The most recent write wins: on a well-formed store whose last block
    lies above the most recent snapshot and mentions the account, the head
    balance of the account is the balance that this block records. *)
Theorem get_account_balance_after_write (bc : MemoryBlockchain) (b : Block)
    (account : string) (state : AccountState) (snapshot : AccountRootFile) :
  well_formed (persist_block bc b) ->
  get_last_account_root_file bc = Some snapshot ->
  snapshot_below snapshot b ->
  get_balance (message b) account = Some state ->
  get_account_balance (persist_block bc b) account None
  = Ok (Some (balance state)).
Proof.
  intros Hwf Hlast Hbelow Hstate.
  rewrite (balance_from_window _ account None snapshot Hwf I Hlast).
  rewrite scan_window_persist, (in_window_head _ _ Hbelow).
  unfold newest_mention. simpl. by rewrite Hstate.
Qed.

Lemma get_account_balance_after_write_witness :
  get_account_balance (persist_block chain_1 block_1) "C" None = Ok (Some 10).
Proof.
  apply (get_account_balance_after_write chain_1 block_1 "C"
           {| balance := 10; balance_lock := None |} genesis).
  - split; [|split].
    + cbn. auto.
    + intros first [= <-]. cbn. lia.
    + intros snapshot k hb [= <-]. discriminate.
  - reflexivity.
  - exact I.
  - reflexivity.
Defined.

(** X10.  Appending a block that does not mention an account leaves the head
    balance of that account as it was (both stores well formed). *)
Theorem get_account_balance_untouched (bc : MemoryBlockchain) (b : Block)
    (account : string) (snapshot : AccountRootFile) :
  well_formed bc ->
  well_formed (persist_block bc b) ->
  get_last_account_root_file bc = Some snapshot ->
  get_balance (message b) account = None ->
  get_account_balance (persist_block bc b) account None
  = get_account_balance bc account None.
Proof.
  intros Hwf Hwf' Hlast Hnone.
  rewrite (balance_from_window _ account None snapshot Hwf' I Hlast).
  rewrite (balance_from_window _ account None snapshot Hwf I Hlast).
  rewrite scan_window_persist. unfold newest_mention.
  destruct (in_window (last_block_number snapshot) None b); [|done].
  simpl. by rewrite Hnone.
Qed.

Lemma get_account_balance_untouched_witness :
  get_account_balance (persist_block chain_1 block_1) "A" None
  = get_account_balance chain_1 "A" None.
Proof.
  apply (get_account_balance_untouched chain_1 block_1 "A" genesis).
  - split; [|split].
    + cbn. auto.
    + intros first [= <-]. cbn. lia.
    + intros snapshot k hb [= <-]. discriminate.
  - split; [|split].
    + cbn. auto.
    + intros first [= <-]. cbn. lia.
    + intros snapshot k hb [= <-]. discriminate.
  - reflexivity.
  - reflexivity.
Defined.

(** X11.  History is stable under appending: the balance resolved as of a
    block number below the appended block's number is the same before and
    after the append (both stores well formed, the number valid before). *)
Theorem get_account_balance_history_stable (bc : MemoryBlockchain) (b : Block)
    (account : string) (t : Z) (snapshot : AccountRootFile) :
  well_formed bc ->
  well_formed (persist_block bc b) ->
  valid_target bc (Some t) ->
  t < number_of b ->
  get_closest_account_root_file bc (Some t) = Some snapshot ->
  get_account_balance (persist_block bc b) account (Some t)
  = get_account_balance bc account (Some t).
Proof.
  intros Hwf Hwf' Hvalid Hlt Hclosest.
  assert (valid_target (persist_block bc b) (Some t)) as Hvalid'.
  { destruct Hvalid as [Hlo _]. split; [done|].
    unfold persist_block. cbn [blocks]. intros hb. rewrite last_snoc.
    intros [= <-]. lia. }
  rewrite (balance_from_window _ account (Some t) snapshot Hwf' Hvalid' Hclosest).
  rewrite (balance_from_window _ account (Some t) snapshot Hwf Hvalid Hclosest).
  rewrite scan_window_persist.
  assert (in_window (last_block_number snapshot) (Some t) b = false) as ->.
  { unfold in_window. destruct (Z.leb_spec (number_of b) t); [lia|done]. }
  reflexivity.
Qed.

Lemma get_account_balance_history_stable_witness :
  get_account_balance (persist_block chain_1 block_1) "B" (Some 0)
  = get_account_balance chain_1 "B" (Some 0).
Proof.
  apply (get_account_balance_history_stable chain_1 block_1 "B" 0 genesis).
  - split; [|split].
    + cbn. auto.
    + intros first [= <-]. cbn. lia.
    + intros snapshot k hb [= <-]. discriminate.
  - split; [|split].
    + cbn. auto.
    + intros first [= <-]. cbn. lia.
    + intros snapshot k hb [= <-]. discriminate.
  - split; [lia|]. intros hb [= <-]. cbn. lia.
  - cbn. lia.
  - reflexivity.
Defined.

Lemma newest_lock_persist account bc b snapshot :
  snapshot_below snapshot b ->
  newest_lock account (scan_window (persist_block bc b) snapshot None)
  = match get_balance (message b) account with
    | Some st =>
        if truthy (balance_lock st) then balance_lock st
        else newest_lock account (scan_window bc snapshot None)
    | None => newest_lock account (scan_window bc snapshot None)
    end.
Proof.
  intros Hbelow. rewrite scan_window_persist, (in_window_head _ _ Hbelow).
  unfold newest_lock. simpl.
  destruct (get_balance (message b) account) as [st|]; [|done].
  destruct (truthy (balance_lock st)) eqn:Ht; [|done].
  by destruct (balance_lock st).
Qed.

Lemma newest_lock_skip account bc b snapshot :
  (forall st, get_balance (message b) account = Some st ->
              truthy (balance_lock st) = false) ->
  newest_lock account (scan_window (persist_block bc b) snapshot None)
  = newest_lock account (scan_window bc snapshot None).
Proof.
  intros Hskip. rewrite scan_window_persist. unfold newest_lock.
  destruct (in_window (last_block_number snapshot) None b); [|done]. simpl.
  destruct (get_balance (message b) account) as [st|]; [|done].
  by rewrite (Hskip st eq_refl).
Qed.

(** X12.  A lock written by the last block is the head lock: on a well-formed
    store whose last block lies above the most recent snapshot and records a
    non-empty lock for the account, [get_account_balance_lock] returns that
    lock. *)
Theorem get_account_balance_lock_after_write (bc : MemoryBlockchain)
    (b : Block) (account : string) (state : AccountState)
    (snapshot : AccountRootFile) :
  well_formed (persist_block bc b) ->
  get_last_account_root_file bc = Some snapshot ->
  snapshot_below snapshot b ->
  get_balance (message b) account = Some state ->
  truthy (balance_lock state) = true ->
  get_account_balance_lock (persist_block bc b) account
  = Ok (balance_lock state).
Proof.
  intros Hwf Hlast Hbelow Hstate Htruthy.
  rewrite (lock_from_window _ account snapshot Hwf Hlast).
  rewrite (newest_lock_persist _ _ _ _ Hbelow), Hstate, Htruthy.
  by destruct (balance_lock state).
Qed.

Lemma get_account_balance_lock_after_write_witness :
  get_account_balance_lock (persist_block chain_1 block_1) "B"
  = Ok (Some "T2").
Proof.
  apply (get_account_balance_lock_after_write chain_1 block_1 "B"
           {| balance := 20; balance_lock := Some "T2" |} genesis).
  - split; [|split].
    + cbn. auto.
    + intros first [= <-]. cbn. lia.
    + intros snapshot k hb [= <-]. discriminate.
  - reflexivity.
  - exact I.
  - reflexivity.
  - reflexivity.
Defined.

(** X13.  Receiving does not touch the lock: appending a block that does not
    mention the account, or mentions it without a lock ([None] or the empty
    string), leaves the account's head lock as it was (both stores well
    formed). *)
Theorem get_account_balance_lock_untouched (bc : MemoryBlockchain) (b : Block)
    (account : string) (snapshot : AccountRootFile) :
  well_formed bc ->
  well_formed (persist_block bc b) ->
  get_last_account_root_file bc = Some snapshot ->
  (forall st, get_balance (message b) account = Some st ->
              truthy (balance_lock st) = false) ->
  get_account_balance_lock (persist_block bc b) account
  = get_account_balance_lock bc account.
Proof.
  intros Hwf Hwf' Hlast Hskip.
  rewrite (lock_from_window _ account snapshot Hwf' Hlast).
  rewrite (lock_from_window _ account snapshot Hwf Hlast).
  by rewrite (newest_lock_skip _ _ _ _ Hskip).
Qed.

Lemma get_account_balance_lock_untouched_witness :
  get_account_balance_lock (persist_block chain_1 block_1) "C"
  = get_account_balance_lock chain_1 "C".
Proof.
  apply (get_account_balance_lock_untouched chain_1 block_1 "C" genesis).
  - split; [|split].
    + cbn. auto.
    + intros first [= <-]. cbn. lia.
    + intros snapshot k hb [= <-]. discriminate.
  - split; [|split].
    + cbn. auto.
    + intros first [= <-]. cbn. lia.
    + intros snapshot k hb [= <-]. discriminate.
  - reflexivity.
  - intros st [= <-]. reflexivity.
Defined.

(** ** What a validated block guarantees *)

Lemma dict_get_elem {V} (d : list (string * V)) (key : string) (v : V) :
  dict_get d key = Some v -> (key, v) ∈ d.
Proof.
  induction d as [|[k w] d IH]; simpl; [done|].
  destruct (String.eqb_spec k key) as [->|_].
  - intros [= ->]. apply list_elem_of_here.
  - intros H. apply list_elem_of_further. by apply IH.
Qed.

Lemma lock_rule_ok (make_balance_lock : option SignedChangeRequest -> string)
    m account state (is_sender : bool) :
  validate_updated_account_balance_lock make_balance_lock m account state
    is_sender = Ok tt ->
  if is_sender
  then balance_lock state = Some (make_balance_lock (signed_change_request m))
       /\ truthy (balance_lock state) = true
  else truthy (balance_lock state) = false.
Proof.
  unfold validate_updated_account_balance_lock, validate_not_empty,
    validate_type_str, validate_exact_value, validate_empty.
  destruct is_sender.
  - destruct (truthy (balance_lock state)) eqn:Ht; [|done]. cbn.
    destruct (balance_lock state) as [l|]; [|done]. cbn.
    destruct (decide _) as [E|_]; [|done]. intros _. by rewrite E.
  - by destruct (truthy (balance_lock state)).
Qed.

Lemma balance_rule_ok m account state bc (is_sender : bool) :
  validate_updated_account_balance m account state bc is_sender = Ok tt ->
  exists r p,
    signed_change_request m = Some r
    /\ get_account_balance bc account (Some (block_number m - 1)) = Ok (Some p)
    /\ balance state
       = (if is_sender then p - scr_get_sent_amount r
          else p + scr_get_recipient_amount r account)
    /\ (is_sender = true -> 0 < p).
Proof.
  unfold validate_updated_account_balance, get_sent_amount,
    get_recipient_amount, validate_greater_than_zero, validate_exact_value,
    py_sub, py_add.
  destruct (get_account_balance bc account (Some (block_number m - 1)))
    as [[p|]|e]; cbn [mbind result_bind].
  - destruct is_sender.
    + destruct (Z.leb_spec p 0); [done|]. cbn.
      destruct (signed_change_request m) as [r|]; [|done]. cbn.
      destruct (decide _) as [E|_]; [|done]. intros _. exists r, p. auto.
    + destruct (signed_change_request m) as [r|]; [|done]. cbn.
      destruct (decide _) as [E|_]; [|done]. intros _. exists r, p.
      repeat split; [done|discriminate].
  - destruct is_sender; [done|].
    by destruct (signed_change_request m).
  - done.
Qed.

Lemma coin_transfer_states_ok
    (account_state_validate : AccountState -> result unit)
    (make_balance_lock : option SignedChangeRequest -> string)
    m bc r :
  validate_updated_account_states account_state_validate make_balance_lock
    m bc = Ok tt ->
  signed_change_request m = Some r ->
  is_coin_transfer r = true ->
  (2 <= length (updated_account_states m))%nat
  /\ (exists st, dict_get (updated_account_states m) (signer r) = Some st)
  /\ validate_account_entries account_state_validate make_balance_lock m bc
       (signer r) (updated_account_states m) = Ok tt.
Proof.
  unfold validate_updated_account_states, validate_not_empty,
    validate_min_item_count.
  intros H Hr Hcoin. rewrite Hr, Hcoin in H. cbn zeta in H.
  destruct (negb _); [|done]. cbn [mbind result_bind] in H.
  destruct (Z.ltb_spec (Z.of_nat (length (updated_account_states m))) 2);
    [done|].
  cbn [mbind result_bind] in H.
  destruct (bool_decide _) eqn:Hsome; [|done].
  apply bool_decide_eq_true in Hsome as [st Hst].
  split; [lia|]. split; [eauto|exact H].
Qed.

(** X14.  A coin-transfer block message that passes
    [validate_updated_account_states] lists at least two accounts, among them
    the signer; every listed account number is non-empty; and exactly the
    signer's entry carries a non-empty lock, which is [make_balance_lock] of
    the request. *)
Theorem validated_coin_transfer_locks
    (account_state_validate : AccountState -> result unit)
    (make_balance_lock : option SignedChangeRequest -> string)
    (m : BlockMessage) (bc : MemoryBlockchain) (r : SignedChangeRequest) :
  validate_updated_account_states account_state_validate make_balance_lock
    m bc = Ok tt ->
  signed_change_request m = Some r ->
  is_coin_transfer r = true ->
  (2 <= length (updated_account_states m))%nat
  /\ (exists st, get_account_state m (signer r) = Some st)
  /\ forall account state, (account, state) ∈ updated_account_states m ->
       account <> EmptyString
       /\ (truthy (balance_lock state) = true <-> account = signer r)
       /\ (account = signer r ->
           balance_lock state = Some (make_balance_lock (Some r))).
Proof.
  intros Hok Hr Hcoin.
  destruct (coin_transfer_states_ok _ _ _ _ _ Hok Hr Hcoin)
    as (Hlen & Hsigner & Hentries).
  split; [done|]. split; [done|].
  intros account state Hin.
  assert (account <> EmptyString) as Hne.
  { clear -Hentries Hin. revert Hentries.
    induction (updated_account_states m) as [|[a st] items IH];
      [by apply elem_of_nil in Hin|].
    cbn [validate_account_entries]. unfold validate_not_empty at 1.
    destruct (truthy (Some a)) eqn:Ha; [|done]. cbn [mbind result_bind].
    unfold validate_type_str at 1. cbn [mbind result_bind].
    destruct (account_state_validate st) as [[]|]; [|done].
    cbn [mbind result_bind].
    destruct (validate_updated_account_balance_lock _ _ _ _ _) as [[]|];
      [|done].
    destruct (validate_updated_account_balance _ _ _ _ _) as [[]|]; [|done].
    cbn [mbind result_bind]. intros Hrest.
    apply elem_of_cons in Hin as [[= -> ->]|Hin].
    - intros ->. discriminate Ha.
    - by apply IH. }
  destruct (validate_account_entries_each _ _ _ _ _ _ Hentries _ _ Hin)
    as [Hlock _].
  apply lock_rule_ok in Hlock. rewrite Hr in Hlock.
  split; [done|].
  destruct (String.eqb_spec account (signer r)) as [Heq|Hneq].
  - destruct Hlock as [Hl Ht]. split; [done|]. done.
  - split; [|done]. split; [congruence|done].
Qed.

Lemma validated_coin_transfer_locks_witness :
  (2 <= length (updated_account_states message_1))%nat
  /\ (exists st, get_account_state message_1 (signer request_1) = Some st)
  /\ forall account state, (account, state) ∈ updated_account_states message_1 ->
       account <> EmptyString
       /\ (truthy (balance_lock state) = true <-> account = signer request_1)
       /\ (account = signer request_1 ->
           balance_lock state = Some "T2").
Proof.
  apply (validated_coin_transfer_locks (fun _ => Ok tt) (fun _ => "T2")
           message_1 chain_1 request_1); reflexivity.
Defined.

(** X15.  For a block message whose request is missing or is no coin transfer,
    [validate_updated_account_states] only asks for a non-empty dict: no lock
    and no balance of any entry is looked at. *)
Theorem non_transfer_states_unchecked
    (account_state_validate : AccountState -> result unit)
    (make_balance_lock : option SignedChangeRequest -> string)
    (m : BlockMessage) (bc : MemoryBlockchain) :
  (forall r, signed_change_request m = Some r -> is_coin_transfer r = false) ->
  (validate_updated_account_states account_state_validate make_balance_lock
     m bc = Ok tt <-> updated_account_states m <> [])
  /\ (updated_account_states m = [] ->
      exists msg,
        validate_updated_account_states account_state_validate
          make_balance_lock m bc = Raise (ValidationError msg)).
Proof.
  intros Hgate. unfold validate_updated_account_states, validate_not_empty.
  destruct (updated_account_states m) as [|entry rest] eqn:Hitems.
  - rewrite bool_decide_eq_true_2 by done. cbn. split; [|eauto].
    split; [done|]. intros H. by destruct H.
  - rewrite bool_decide_eq_false_2 by done. cbn [negb mbind result_bind].
    split; [|done].
    destruct (signed_change_request m) as [r|]; [|done].
    by rewrite (Hgate r eq_refl).
Qed.

Lemma non_transfer_states_unchecked_witness :
  validate_updated_account_states (fun _ => Ok tt) (fun _ => "T1")
    {| block_type := "nd"; signed_change_request := None;
       timestamp := naive 1000; block_number := 0; block_identifier := "h0";
       updated_account_states :=
         [("A", {| balance := 5; balance_lock := Some "anything" |})] |}
    chain_0 = Ok tt.
Proof.
  eapply (non_transfer_states_unchecked (fun _ => Ok tt) (fun _ => "T1")).
  - intros r [=].
  - discriminate.
Defined.

(** X16.  Lock rotation on append: when a coin-transfer block that passed
    [validate_updated_account_states] is appended above the most recent
    snapshot, the signer's head lock becomes [make_balance_lock] of the
    request, and the head lock of every other account stays what it was. *)
Theorem validated_append_rotates_lock
    (account_state_validate : AccountState -> result unit)
    (make_balance_lock : option SignedChangeRequest -> string)
    (bc bc0 : MemoryBlockchain) (b : Block) (r : SignedChangeRequest)
    (snapshot : AccountRootFile) :
  well_formed bc ->
  well_formed (persist_block bc b) ->
  get_last_account_root_file bc = Some snapshot ->
  snapshot_below snapshot b ->
  validate_updated_account_states account_state_validate make_balance_lock
    (message b) bc0 = Ok tt ->
  signed_change_request (message b) = Some r ->
  is_coin_transfer r = true ->
  get_account_balance_lock (persist_block bc b) (signer r)
  = Ok (Some (make_balance_lock (Some r)))
  /\ forall account, account <> signer r ->
       get_account_balance_lock (persist_block bc b) account
       = get_account_balance_lock bc account.
Proof.
  intros Hwf Hwf' Hlast Hbelow Hok Hr Hcoin.
  destruct (coin_transfer_states_ok _ _ _ _ _ Hok Hr Hcoin)
    as (_ & [st Hst] & Hentries).
  split.
  - pose proof (dict_get_elem _ _ _ Hst) as Hin.
    destruct (validate_account_entries_each _ _ _ _ _ _ Hentries _ _ Hin)
      as [Hlock _].
    apply lock_rule_ok in Hlock. rewrite String.eqb_refl, Hr in Hlock.
    destruct Hlock as [Hl Ht].
    rewrite (lock_from_window _ _ snapshot Hwf' Hlast).
    rewrite (newest_lock_persist _ _ _ _ Hbelow).
    unfold get_balance, get_account_state. by rewrite Hst, Ht, Hl.
  - intros account Hne.
    rewrite (lock_from_window _ account snapshot Hwf' Hlast).
    rewrite (lock_from_window _ account snapshot Hwf Hlast).
    rewrite newest_lock_skip; [done|].
    intros st' Hst'. apply dict_get_elem in Hst'.
    destruct (validate_account_entries_each _ _ _ _ _ _ Hentries _ _ Hst')
      as [Hlock _].
    apply lock_rule_ok in Hlock.
    destruct (String.eqb_spec account (signer r)); [done|exact Hlock].
Qed.

Lemma validated_append_rotates_lock_witness :
  get_account_balance_lock (persist_block chain_1 block_1) (signer request_1)
  = Ok (Some "T2")
  /\ forall account, account <> signer request_1 ->
       get_account_balance_lock (persist_block chain_1 block_1) account
       = get_account_balance_lock chain_1 account.
Proof.
  apply (validated_append_rotates_lock (fun _ => Ok tt) (fun _ => "T2")
           chain_1 chain_1 block_1 request_1 genesis).
  - split; [|split].
    + cbn. auto.
    + intros first [= <-]. cbn. lia.
    + intros snapshot k hb [= <-]. discriminate.
  - split; [|split].
    + cbn. auto.
    + intros first [= <-]. cbn. lia.
    + intros snapshot k hb [= <-]. discriminate.
  - reflexivity.
  - exact I.
  - reflexivity.
  - reflexivity.
  - reflexivity.
Defined.

(** X17.  Balance transition on append: when a coin-transfer block that
    passed [validate_updated_account_states] against the store is appended
    above the most recent snapshot, every account it lists had an integer
    balance as of the previous block number, and its head balance afterwards
    is that balance minus the sent amount for the signer (whose previous
    balance was strictly positive) and plus its recipient amount for any
    other account. *)
Theorem validated_append_moves_balance
    (account_state_validate : AccountState -> result unit)
    (make_balance_lock : option SignedChangeRequest -> string)
    (bc : MemoryBlockchain) (b : Block) (r : SignedChangeRequest)
    (snapshot : AccountRootFile) (account : string) (state : AccountState) :
  well_formed (persist_block bc b) ->
  get_last_account_root_file bc = Some snapshot ->
  snapshot_below snapshot b ->
  validate_updated_account_states account_state_validate make_balance_lock
    (message b) bc = Ok tt ->
  signed_change_request (message b) = Some r ->
  is_coin_transfer r = true ->
  get_balance (message b) account = Some state ->
  exists prior,
    get_account_balance bc account (Some (number_of b - 1)) = Ok (Some prior)
    /\ get_account_balance (persist_block bc b) account None
       = Ok (Some (if String.eqb account (signer r)
                   then prior - scr_get_sent_amount r
                   else prior + scr_get_recipient_amount r account))
    /\ (account = signer r -> 0 < prior).
Proof.
  intros Hwf' Hlast Hbelow Hok Hr Hcoin Hstate.
  destruct (coin_transfer_states_ok _ _ _ _ _ Hok Hr Hcoin)
    as (_ & _ & Hentries).
  pose proof (dict_get_elem _ _ _ Hstate) as Hin.
  destruct (validate_account_entries_each _ _ _ _ _ _ Hentries _ _ Hin)
    as [_ Hbal].
  apply balance_rule_ok in Hbal as (r' & p & Hr' & Hprior & Hnew & Hpos).
  rewrite Hr in Hr'. inversion Hr'; subst r'.
  exists p. split; [exact Hprior|]. split.
  - rewrite (balance_from_window _ account None snapshot Hwf' I Hlast).
    rewrite scan_window_persist, (in_window_head _ _ Hbelow).
    unfold newest_mention. simpl. rewrite Hstate. simpl. by rewrite Hnew.
  - intros ->. apply Hpos. apply String.eqb_refl.
Qed.

Lemma validated_append_moves_balance_witness :
  exists prior,
    get_account_balance chain_1 "B" (Some (number_of block_1 - 1))
    = Ok (Some prior)
    /\ get_account_balance (persist_block chain_1 block_1) "B" None
       = Ok (Some (if String.eqb "B" (signer request_1)
                   then prior - scr_get_sent_amount request_1
                   else prior + scr_get_recipient_amount request_1 "B"))
    /\ ("B" = signer request_1 -> 0 < prior).
Proof.
  apply (validated_append_moves_balance (fun _ => Ok tt) (fun _ => "T2")
           chain_1 block_1 request_1 genesis "B"
           {| balance := 20; balance_lock := Some "T2" |}).
  - split; [|split].
    + cbn. auto.
    + intros first [= <-]. cbn. lia.
    + intros snapshot k hb [= <-]. discriminate.
  - reflexivity.
  - exact I.
  - reflexivity.
  - reflexivity.
  - reflexivity.
  - reflexivity.
Defined.

(** ** Runs of the chain validator *)

Lemma validate_each_fail
    (block_validate : Block -> MemoryBlockchain -> result unit)
    (bc : MemoryBlockchain) (pre : list Block) (b : Block) (post : list Block)
    (e : exn) :
  (forall x, x ∈ pre -> block_validate x bc = Ok tt) ->
  block_validate b bc = Raise e ->
  validate_each block_validate bc (pre ++ b :: post)
  = {| delegated := pre ++ [b]; outcome := Raise e |}.
Proof.
  induction pre as [|a pre IH]; intros Hpre Hb.
  - simpl. by rewrite Hb.
  - simpl. rewrite (Hpre a) by apply list_elem_of_here.
    rewrite IH; [done| |done].
    intros x Hx. apply Hpre. by apply list_elem_of_further.
Qed.

Lemma validate_each_outcome
    (block_validate : Block -> MemoryBlockchain -> result unit)
    (bc : MemoryBlockchain) (l : list Block) :
  exists e, (_ ← outcome (validate_each block_validate bc l);
             Raise NotImplementedError) = (Raise e : result unit).
Proof.
  destruct (outcome (validate_each block_validate bc l)) as [[]|e]; cbn; eauto.
Qed.

(** X18.  Chain validation never completes normally: for every store, window
    and block validator, the outcome of [validate_blocks] and of [validate] is
    a raised exception; when there is a snapshot and every block is valid, it
    is [NotImplementedError], raised after every block of the store has been
    handed to [block.validate]. *)
Theorem validate_never_completes
    (block_validate : Block -> MemoryBlockchain -> result unit)
    (bc : MemoryBlockchain) (offset limit : option Z) :
  (exists e, outcome (validate_blocks block_validate bc offset limit) = Raise e)
  /\ (exists e, outcome (validate block_validate bc offset limit) = Raise e)
  /\ (account_root_files bc <> [] ->
      (forall b, b ∈ blocks bc -> block_validate b bc = Ok tt) ->
      validate block_validate bc offset limit
      = {| delegated := blocks bc; outcome := Raise NotImplementedError |}).
Proof.
  assert (forall o l,
            exists e, outcome (validate_blocks block_validate bc o l) = Raise e)
    as Hblocks.
  { intros o l. unfold validate_blocks. cbn zeta.
    destruct (if _ : bool then _ else _) as [blocks_iter|e]; cbn [outcome].
    - apply validate_each_outcome.
    - eauto. }
  split; [apply Hblocks|]. split.
  - unfold validate. destruct (validate_account_root_files bc); cbn [outcome].
    + apply Hblocks.
    + eauto.
  - intros Hsnap Hall. unfold validate, validate_account_root_files.
    destruct (account_root_files bc); [done|].
    unfold validate_blocks. cbn.
    by rewrite validate_each_all_pass.
Qed.

(** X19.  Chain validation is fail-fast: when a block of the store fails
    [block.validate] and every block before it passes, the run over the whole
    store hands over the blocks up to and including the failing one, none
    after it, and ends with that block's exception. *)
Theorem validate_blocks_fail_fast
    (block_validate : Block -> MemoryBlockchain -> result unit)
    (bc : MemoryBlockchain) (pre : list Block) (b : Block) (post : list Block)
    (e : exn) :
  blocks bc = (pre ++ b :: post)%list ->
  (forall x, x ∈ pre -> block_validate x bc = Ok tt) ->
  block_validate b bc = Raise e ->
  validate_blocks block_validate bc None None
  = {| delegated := pre ++ [b]; outcome := Raise e |}
  /\ (account_root_files bc <> [] ->
      forall offset limit,
        validate block_validate bc offset limit
        = {| delegated := pre ++ [b]; outcome := Raise e |}).
Proof.
  intros Hblocks Hpre Hb.
  assert (validate_blocks block_validate bc None None
          = {| delegated := pre ++ [b]; outcome := Raise e |}) as Hrun.
  { unfold validate_blocks. cbn. rewrite Hblocks.
    by rewrite (validate_each_fail _ _ _ _ _ _ Hpre Hb). }
  split; [exact Hrun|].
  intros Hsnap offset limit. unfold validate, validate_account_root_files.
  by destruct (account_root_files bc).
Qed.

Lemma validate_blocks_fail_fast_witness :
  validate_blocks
    (fun b _ => if number_of b =? 0
                then Raise (ValidationError "invalid") else Ok tt)
    chain_2 None None
  = {| delegated := [block_0];
       outcome := Raise (ValidationError "invalid") |}.
Proof.
  apply (validate_blocks_fail_fast
           (fun b _ => if number_of b =? 0
                       then Raise (ValidationError "invalid") else Ok tt)
           chain_2 [] block_0 [block_1]).
  - reflexivity.
  - intros x Hx. by apply elem_of_nil in Hx.
  - reflexivity.
Defined.

(** X20.  Windows of [validate_blocks]: a negative offset raises a
    [ValueError] before any block is handed over, whatever the limit; with a
    limit and no offset, and every block valid, exactly the first [limit]
    blocks are handed over; with neither, the whole store. *)
Theorem validate_blocks_edges
    (block_validate : Block -> MemoryBlockchain -> result unit)
    (bc : MemoryBlockchain) :
  (forall offset limit, offset < 0 ->
     exists msg,
       validate_blocks block_validate bc (Some offset) limit
       = {| delegated := []; outcome := Raise (ValueError msg) |})
  /\ ((forall b, b ∈ blocks bc -> block_validate b bc = Ok tt) ->
      (forall limit, 0 <= limit ->
         validate_blocks block_validate bc None (Some limit)
         = {| delegated := take (Z.to_nat limit) (blocks bc);
              outcome := Raise NotImplementedError |})
      /\ validate_blocks block_validate bc None None
         = {| delegated := blocks bc; outcome := Raise NotImplementedError |}).
Proof.
  split.
  - intros offset limit Hneg. unfold validate_blocks, islice_stop, islice.
    cbn [or_zero]. rewrite (bool_decide_eq_true_2 (Some offset <> None)) by done.
    cbn [orb].
    destruct limit as [limit|].
    + destruct (Z.ltb_spec offset 0); [|lia]. cbn. eauto.
    + destruct (Z.ltb_spec offset 0); [|lia]. cbn. eauto.
  - intros Hall. split.
    + intros limit Hlimit. unfold validate_blocks, islice. cbn [or_zero].
      rewrite (bool_decide_eq_true_2 (Some limit <> None)) by done.
      rewrite orb_true_r. cbn [Z.ltb Z.compare orb].
      destruct (Z.ltb_spec (0 + limit) 0); [lia|].
      replace (0 + limit - 0) with limit by lia. cbn [Z.to_nat drop].
      rewrite validate_each_all_pass; [done|].
      intros b Hb. apply Hall. by apply (subseteq_take (Z.to_nat limit)) in Hb.
    + unfold validate_blocks. cbn. by rewrite validate_each_all_pass.
Qed.

(** ** Timestamps along a store *)

Lemma block_at_position bc f (i : nat) b :
  numbered_from f (blocks bc) ->
  blocks bc !! i = Some b ->
  0 <= number_of b ->
  get_block_by_number bc (number_of b) = Ok (Some b).
Proof.
  intros Hnum Hi Hpos. unfold get_block_by_number, block_by_number.
  destruct (Z.ltb_spec (number_of b) 0); [lia|].
  pose proof (lookup_lt_Some _ _ _ Hi) as Hlt.
  destruct (last (blocks bc)) as [hb|] eqn:Hlast.
  2:{ apply last_None in Hlast. rewrite Hlast in Hlt. simpl in Hlt. lia. }
  cbn zeta.
  pose proof (numbered_from_last _ _ _ Hnum Hlast) as Hhead.
  pose proof (numbered_from_lookup _ _ _ _ Hnum Hi) as Hb.
  destruct (Z.ltb_spec (number_of hb) (number_of b)); [lia|].
  rewrite py_getitem_neg_ok by lia.
  replace (Z.to_nat (number_of b - number_of hb - 1
                     + Z.of_nat (length (blocks bc)))) with i by lia.
  by rewrite Hi.
Qed.

Lemma block_below_first bc first n :
  sequential (blocks bc) ->
  head (blocks bc) = Some first ->
  0 <= n < number_of first ->
  get_block_by_number bc n = Raise MissingEarlierBlocksError.
Proof.
  intros Hseq Hfirst [Hlo Hhi]. unfold get_block_by_number, block_by_number.
  destruct (Z.ltb_spec n 0); [lia|].
  pose proof (sequential_numbered _ _ Hseq Hfirst) as Hnum.
  destruct (last (blocks bc)) as [hb|] eqn:Hlast.
  2:{ apply last_None in Hlast. by rewrite Hlast in Hfirst. }
  cbn zeta.
  pose proof (numbered_from_last _ _ _ Hnum Hlast) as Hhead.
  assert (length (blocks bc) <> 0%nat) as Hlen
    by (destruct (blocks bc); [done|simpl; lia]).
  destruct (Z.ltb_spec (number_of hb) n); [lia|].
  rewrite py_getitem_neg_out by lia.
  rewrite (py_getitem_first _ _ Hfirst).
  destruct (Z.ltb_spec n (number_of first)); [done|lia].
Qed.

Lemma block_lookup_none bc n :
  get_block_by_number bc n = Ok None ->
  blocks bc = [] \/ exists hb, last (blocks bc) = Some hb /\ number_of hb < n.
Proof.
  unfold get_block_by_number, block_by_number.
  destruct (n <? 0); [done|].
  destruct (last (blocks bc)) as [hb|] eqn:Hlast.
  2:{ apply last_None in Hlast. auto. }
  cbn zeta. destruct (Z.ltb_spec (number_of hb) n); [eauto|].
  destruct (py_getitem (blocks bc) _) as [b|[]]; try done.
  destruct (py_getitem (blocks bc) 0) as [first|]; [|done].
  by destruct (n <? number_of first).
Qed.

(** X21.  Timestamps increase along a validated store: on a sequentially
    numbered store starting at a non-negative number, if every stored block
    passes [validate_timestamp] against the store, then the timestamps of any
    two neighbouring blocks are naive datetimes and the later block's is
    strictly greater. *)
Theorem validated_timestamps_increase
    (snapshot_lookup : MemoryBlockchain -> Z -> result (option AccountRootFile))
    (bc : MemoryBlockchain) :
  sequential (blocks bc) ->
  (forall first, head (blocks bc) = Some first -> 0 <= number_of first) ->
  (forall b, b ∈ blocks bc ->
             validate_timestamp snapshot_lookup (message b) bc = Ok tt) ->
  forall (i : nat) b1 b2,
    blocks bc !! i = Some b1 ->
    blocks bc !! S i = Some b2 ->
    exists d1 d2,
      timestamp (message b1) = PyDatetime d1
      /\ timestamp (message b2) = PyDatetime d2
      /\ tzinfo d1 = None /\ tzinfo d2 = None
      /\ instant d1 < instant d2.
Proof.
  intros Hseq Hpos Hall i b1 b2 H1 H2.
  destruct (head (blocks bc)) as [first|] eqn:Hfirst.
  2:{ apply head_None in Hfirst. by rewrite Hfirst in H1. }
  specialize (Hpos first eq_refl).
  pose proof (sequential_numbered _ _ Hseq Hfirst) as Hnum.
  pose proof (numbered_from_lookup _ _ _ _ Hnum H1) as Hn1.
  pose proof (numbered_from_lookup _ _ _ _ Hnum H2) as Hn2.
  assert (get_block_by_number bc (number_of b2 - 1) = Ok (Some b1)) as Hprev.
  { replace (number_of b2 - 1) with (number_of b1) by lia.
    apply (block_at_position bc (number_of first) i); [done|done|lia]. }
  assert (b2 ∈ blocks bc) as Hin2 by (apply list_elem_of_lookup; eauto).
  specialize (Hall b2 Hin2). unfold validate_timestamp in Hall.
  destruct (timestamp (message b2)) as [| |d2]; [done|done|].
  destruct (tzinfo d2) eqn:Htz2; [done|].
  fold (number_of b2) in Hall.
  destruct (Z.ltb_spec 0 (number_of b2)); [|lia].
  rewrite Hprev in Hall. cbn [mbind result_bind] in Hall.
  unfold datetime_le in Hall.
  destruct (timestamp (message b1)) as [| |d1]; [done|done|].
  destruct (tzinfo d1) eqn:Htz1; [done|]. cbn [mbind result_bind] in Hall.
  destruct (Z.leb_spec (instant d2) (instant d1)); [done|].
  exists d1, d2. auto.
Qed.

Lemma validated_timestamps_increase_witness :
  exists d1 d2,
    timestamp (message block_0) = PyDatetime d1
    /\ timestamp (message block_1) = PyDatetime d2
    /\ tzinfo d1 = None /\ tzinfo d2 = None
    /\ instant d1 < instant d2.
Proof.
  apply (validated_timestamps_increase closest_snapshot chain_2) with (i := 0%nat).
  - cbn. auto.
  - intros first [= <-]. cbn. lia.
  - intros b Hb. cbn in Hb.
    apply elem_of_cons in Hb as [->|Hb]; [reflexivity|].
    apply list_elem_of_singleton in Hb as ->. reflexivity.
  - reflexivity.
  - reflexivity.
Defined.

(** X22.  On a partial store (sequentially numbered, first retained block
    above 0), the timestamp validation of a message with a naive timestamp and
    a block number from 1 up to the first retained number raises
    [MissingEarlierBlocksError]: the snapshot is not consulted, and in
    particular the first retained block itself does not validate against the
    store. *)
Theorem validate_timestamp_partial_store
    (snapshot_lookup : MemoryBlockchain -> Z -> result (option AccountRootFile))
    (bc : MemoryBlockchain) (first : Block) (m : BlockMessage) (ts : datetime) :
  sequential (blocks bc) ->
  head (blocks bc) = Some first ->
  timestamp m = PyDatetime ts ->
  tzinfo ts = None ->
  0 < block_number m <= number_of first ->
  validate_timestamp snapshot_lookup m bc = Raise MissingEarlierBlocksError.
Proof.
  intros Hseq Hfirst Hts Htz [Hlo Hhi]. unfold validate_timestamp.
  rewrite Hts, Htz.
  destruct (Z.ltb_spec 0 (block_number m)); [|lia].
  by rewrite (block_below_first bc first) by (done || lia).
Qed.

Lemma validate_timestamp_partial_store_witness :
  validate_timestamp closest_snapshot message_1
    {| account_root_files := [genesis]; blocks := [block_1] |}
  = Raise MissingEarlierBlocksError.
Proof.
  apply (validate_timestamp_partial_store closest_snapshot
           {| account_root_files := [genesis]; blocks := [block_1] |}
           block_1 message_1 {| tzinfo := None; instant := 2000 |}).
  - cbn. auto.
  - reflexivity.
  - reflexivity.
  - reflexivity.
  - cbn. lia.
Defined.

(** X23.  The snapshot is consulted only beyond the store: when the store is
    not empty and the previous block number is at most the head's, the result
    of [validate_timestamp] does not depend on the snapshot lookup. *)
Theorem validate_timestamp_ignores_snapshots
    (lookup1 lookup2 : MemoryBlockchain -> Z -> result (option AccountRootFile))
    (bc : MemoryBlockchain) (m : BlockMessage) (hb : Block) :
  get_head_block bc = Some hb ->
  block_number m - 1 <= number_of hb ->
  validate_timestamp lookup1 m bc = validate_timestamp lookup2 m bc.
Proof.
  unfold get_head_block. intros Hlast Hle. unfold validate_timestamp.
  destruct (timestamp m) as [| |ts]; [done|done|].
  destruct (tzinfo ts); [done|].
  destruct (0 <? block_number m); [|done].
  destruct (get_block_by_number bc (block_number m - 1)) as [[prev|]|e] eqn:Hp;
    [done| |done].
  apply block_lookup_none in Hp as [Hnil|(hb' & Hlast' & Hlt)].
  - by rewrite Hnil in Hlast.
  - rewrite Hlast in Hlast'. inversion Hlast'; subst. lia.
Qed.

Lemma validate_timestamp_ignores_snapshots_witness :
  validate_timestamp closest_snapshot message_1 chain_2
  = validate_timestamp (fun _ _ => Ok None) message_1 chain_2.
Proof.
  apply (validate_timestamp_ignores_snapshots closest_snapshot
           (fun _ _ => Ok None) chain_2 message_1 block_1).
  - reflexivity.
  - cbn. lia.
Defined.

(** ** The whole block message *)

(** X24.  A block message that passes [validate] has a signed change request
    that passes its own validation, a non-negative block number, a naive
    datetime as timestamp, the block identifier that the blockchain expects
    for its number, and a non-empty [updated_account_states]; a message
    without a request is rejected for that reason before anything else is
    checked. *)
Theorem validate_message_guarantees
    (snapshot_lookup : MemoryBlockchain -> Z -> result (option AccountRootFile))
    (get_expected_block_identifier : MemoryBlockchain -> Z -> result string)
    (signed_change_request_validate :
       SignedChangeRequest -> MemoryBlockchain -> Z -> result unit)
    (account_state_validate : AccountState -> result unit)
    (make_balance_lock : option SignedChangeRequest -> string)
    (m : BlockMessage) (bc : MemoryBlockchain) :
  let run :=
    validate_message snapshot_lookup get_expected_block_identifier
      signed_change_request_validate account_state_validate make_balance_lock
      m bc in
  (run = Ok tt ->
   (exists r, signed_change_request m = Some r
              /\ signed_change_request_validate r bc (block_number m) = Ok tt)
   /\ 0 <= block_number m
   /\ (exists ts, timestamp m = PyDatetime ts /\ tzinfo ts = None)
   /\ get_expected_block_identifier bc (block_number m)
      = Ok (block_identifier m)
   /\ updated_account_states m <> [])
  /\ (signed_change_request m = None ->
      run = Raise (ValidationError
                     "Block message transfer request must present")).
Proof.
  intros run. subst run. unfold validate_message. split.
  - unfold validate_signed_change_request.
    destruct (signed_change_request m) as [r|] eqn:Hr; [|done].
    destruct (signed_change_request_validate r bc (block_number m))
      as [[]|] eqn:Hreq; [|done].
    cbn [mbind result_bind]. unfold validate_block_number.
    destruct (Z.ltb_spec (block_number m) 0); [done|].
    cbn [mbind result_bind].
    destruct (validate_timestamp snapshot_lookup m bc) as [[]|] eqn:Hts;
      [|done].
    cbn [mbind result_bind]. unfold validate_block_identifier.
    destruct (get_expected_block_identifier bc (block_number m))
      as [expected|] eqn:Hid; [|done].
    cbn [mbind result_bind].
    destruct (String.eqb_spec (block_identifier m) expected) as [<-|]; [|done].
    cbn [mbind result_bind]. intros Hstates.
    split; [eauto|]. split; [done|]. split; [|split; [done|]].
    + unfold validate_timestamp in Hts.
      destruct (timestamp m) as [| |ts]; [done|done|].
      destruct (tzinfo ts) eqn:Htz; [done|]. eauto.
    + unfold validate_updated_account_states, validate_not_empty in Hstates.
      rewrite Hr in Hstates.
      destruct (updated_account_states m); [|done].
      by rewrite bool_decide_eq_true_2 in Hstates.
  - unfold validate_signed_change_request. by intros ->.
Qed.

(** ** Serialized balances and their validation *)

(** X25.  The dict produced by [to_dict] never holds [None]: it always has the
    record's value under 'value', it has no key besides 'value' and 'lock',
    and no key is bound to [None]. *)
Theorem to_dict_normalized (b : Serialization.BlockAccountBalance) :
  Serialization.to_dict b !! "value"
  = Some (Serialization.VInt (Serialization.value b))
  /\ (forall key, is_Some (Serialization.to_dict b !! key) ->
                  key = "value" \/ key = "lock")
  /\ (forall key, Serialization.to_dict b !! key <> Some Serialization.VNone).
Proof.
  destruct b as [v [s|]];
    unfold Serialization.to_dict, Serialization.override_to_dict,
      Serialization.super_to_dict; cbn;
    rewrite lookup_insert_eq; cbn.
  - split; [|split].
    + rewrite lookup_insert_ne by done. apply lookup_insert_eq.
    + intros key [x Hx].
      destruct (decide (key = "lock")) as [->|Hl]; [auto|].
      rewrite lookup_insert_ne in Hx by done.
      destruct (decide (key = "value")) as [->|Hv]; [auto|].
      rewrite lookup_insert_ne in Hx by done. by rewrite lookup_empty in Hx.
    + intros key.
      destruct (decide (key = "lock")) as [->|Hl];
        [by rewrite lookup_insert_eq|].
      rewrite lookup_insert_ne by done.
      destruct (decide (key = "value")) as [->|Hv];
        [by rewrite lookup_insert_eq|].
      rewrite lookup_insert_ne by done. by rewrite lookup_empty.
  - split; [|split].
    + rewrite lookup_delete_ne by done.
      rewrite lookup_insert_ne by done. apply lookup_insert_eq.
    + intros key [x Hx].
      destruct (decide (key = "lock")) as [->|Hl]; [auto|].
      rewrite lookup_delete_ne in Hx by done.
      rewrite lookup_insert_ne in Hx by done.
      destruct (decide (key = "value")) as [->|Hv]; [auto|].
      rewrite lookup_insert_ne in Hx by done. by rewrite lookup_empty in Hx.
    + intros key.
      destruct (decide (key = "lock")) as [->|Hl];
        [by rewrite lookup_delete_eq|].
      rewrite lookup_delete_ne by done.
      rewrite lookup_insert_ne by done.
      destruct (decide (key = "value")) as [->|Hv];
        [by rewrite lookup_insert_eq|].
      rewrite lookup_insert_ne by done. by rewrite lookup_empty.
Qed.

(** X26.  [AccountBalance.validate] with the lock check accepts exactly the
    records whose value is an integer and whose lock is a non-empty string;
    [BlockAccountBalance.validate] accepts exactly the records whose value is
    an integer, whatever the lock, so it accepts everything the former
    accepts; a value that is no integer is reported before any fault of the
    lock. *)
Theorem account_balance_validate_rule
    (self : AccountBalanceObject.AccountBalance) :
  (AccountBalanceObject.validate self true = Ok tt <->
   exists z s, AccountBalanceObject.value self = Serialization.VInt z
               /\ AccountBalanceObject.lock self = Serialization.VStr s
               /\ s <> EmptyString)
  /\ (AccountBalanceObject.block_validate self = Ok tt <->
      exists z, AccountBalanceObject.value self = Serialization.VInt z)
  /\ (AccountBalanceObject.validate self true = Ok tt ->
      AccountBalanceObject.block_validate self = Ok tt)
  /\ ((forall z, AccountBalanceObject.value self <> Serialization.VInt z) ->
      forall validate_lock,
        AccountBalanceObject.validate self validate_lock
        = Raise (ValidationError "Account balance value must be an integer")).
Proof.
  destruct self as [v l].
  unfold AccountBalanceObject.block_validate, AccountBalanceObject.validate.
  cbn [AccountBalanceObject.value AccountBalanceObject.lock].
  destruct v as [|z|sv]; cbn.
  - split; [|split; [|split]]; try done.
    + split; [done|]. by intros (z & s & [=] & _).
    + split; [done|]. by intros (z & [=]).
  - split; [|split; [|split]].
    + destruct l as [|zl|[|c s]]; cbn.
      * split; [done|]. by intros (z' & s & _ & [=] & _).
      * split; [done|]. by intros (z' & s & _ & [=] & _).
      * split; [done|]. by intros (z' & s & _ & [= <-] & Hs).
      * split; [|done]. intros _. exists z, (String c s). done.
    + split; [|done]. eauto.
    + done.
    + intros H. by destruct (H z).
  - split; [|split; [|split]]; try done.
    + split; [done|]. by intros (z & s & [=] & _).
    + split; [done|]. by intros (z & [=]).
Qed.


(** ** The per-account rules through the validation of a block *)


(** C3 as stated fails for a block that is no coin transfer: the block passes
    [validate] although the signer's entry carries no lock and another
    account's entry carries one. *)
Lemma non_transfer_block_locks_unchecked :
  validate_message closest_snapshot expect_h0 request_valid state_valid
    (fun _ => "T1") message_nd chain_0 = Ok tt
  /\ signed_change_request message_nd = Some request_nd
  /\ get_account_state message_nd (signer request_nd)
     = Some {| balance := 1000000; balance_lock := None |}
  /\ get_account_state message_nd "B"
     = Some {| balance := 999; balance_lock := Some "stray" |}
  /\ "B" <> signer request_nd.
Proof. repeat split. discriminate. Qed.

(** C3, amended.  For a block message whose request is a coin transfer:
    [validate_updated_account_states] passes only if, for every entry
    [(account, state)] of its updated account states, the lock of the signer's
    entry is a non-empty string equal to [make_balance_lock] of the signed
    change request and the lock of every other account's entry is absent
    ([None] or the empty string); an entry that breaks this makes the
    validation raise. *)
Theorem validate_updated_account_states_lock_rule
    (account_state_validate : AccountState -> result unit)
    (make_balance_lock : option SignedChangeRequest -> string)
    (m : BlockMessage) (bc : MemoryBlockchain) (r : SignedChangeRequest) :
  signed_change_request m = Some r ->
  is_coin_transfer r = true ->
  let run :=
    validate_updated_account_states account_state_validate make_balance_lock
      m bc in
  let lock_rule (account : string) (state : AccountState) : Prop :=
    (account = signer r ->
     exists l, balance_lock state = Some l /\ l <> EmptyString
               /\ l = make_balance_lock (Some r))
    /\ (account <> signer r ->
        balance_lock state = None \/ balance_lock state = Some EmptyString) in
  (run = Ok tt ->
   forall account state, (account, state) ∈ updated_account_states m ->
                         lock_rule account state)
  /\ (forall account state, (account, state) ∈ updated_account_states m ->
        ~ lock_rule account state -> raises run).
Proof.
  intros Hr Hcoin run lock_rule.
  assert (run = Ok tt ->
          forall account state, (account, state) ∈ updated_account_states m ->
                                lock_rule account state) as Hrule.
  { intros Hok account state Hin. subst run lock_rule.
    destruct (coin_transfer_states_ok _ _ _ _ _ Hok Hr Hcoin)
      as (_ & _ & Hentries).
    destruct (validate_account_entries_each _ _ _ _ _ _ Hentries _ _ Hin)
      as [Hlock _].
    apply lock_rule_ok in Hlock. rewrite Hr in Hlock.
    destruct (String.eqb_spec account (signer r)) as [Heq|Hne].
    - destruct Hlock as [Hl Ht]. split; [|done]. intros _.
      apply truthy_true in Ht as (l & Hl' & Hne).
      exists l. split; [done|]. split; [done|]. congruence.
    - split; [done|]. intros _. by apply truthy_false. }
  split; [exact Hrule|].
  intros account state Hin Hbreak.
  destruct run as [[]|e] eqn:Hrun; [|by exists e].
  destruct Hbreak. by apply Hrule.
Qed.

Lemma validate_updated_account_states_lock_rule_witness :
  ("B" = signer request_1 ->
   exists l, Some "T2" = Some l /\ l <> EmptyString /\ l = "T2")
  /\ ("B" <> signer request_1 ->
      Some "T2" = None \/ Some "T2" = Some EmptyString).
Proof.
  destruct (validate_updated_account_states_lock_rule state_valid
              (fun _ => "T2") message_1 chain_1 request_1 eq_refl eq_refl)
    as [H _].
  apply (H eq_refl "B" {| balance := 20; balance_lock := Some "T2" |}).
  apply list_elem_of_here.
Defined.



